(** * firmware_variables: device paths and boot variables

    A shallow embedding of [src/firmware_variables/device_path.py] and
    [src/firmware_variables/boot.py], with the properties of the codec
    stated and proved over it.

    Conventions.
    - Python [bytes] is [list Byte.byte]; an index, an offset, a length and
      the unsigned fields of a node header are [nat]; any other Python
      [int] is a [Z].
    - A Python function that may raise returns a [result]; the constructors
      of [exn] are the exception classes the modelled code can raise.
    - The [while] loop of [DevicePathList.from_bytes] takes fuel; running
      out of fuel is [None] and stands for a loop that has not ended yet. *)

From Stdlib Require Import String Ascii ZArith NArith List Bool Lia.
From Stdlib Require Import ZifyNat ZifyN.
From Stdlib Require Strings.Byte.
Import ListNotations.

(** [lia] reasons about division and remainder by a constant. *)
Ltac Zify.zify_post_hook ::= Z.div_mod_to_equations.


(* ================================================================== *)
(** ** Exceptions and results *)

Inductive DevicePathType : Type :=
| HARDWARE_DEVICE_PATH
| ACPI_DEVICE_PATH
| MESSAGING_DEVICE_PATH
| MEDIA_DEVICE_PATH
| BIOS_BOOT_SPECIFICATION_DEVICE_PATH
| END_OF_HARDWARE_DEVICE_PATH.

(** The enumeration class named by the message of the [ValueError] that
    [Enum.__call__] raises ("v is not a valid <class>"). *)
Inductive EnumClass : Type :=
| DevicePathType_class
| Subtype_class (t : DevicePathType).

(** What the platform modules signal: the firmware check that fails, a
    variable that is not present, an access that is denied. *)
Inductive StoreSignal : Type :=
| UnsupportedFirmware
| NotFound
| AccessDenied.

Inductive exn : Type :=
| struct_error                                 (* struct.error *)
| ValueError_enum (cls : EnumClass) (v : nat)  (* Enum lookup of a non-member *)
| ValueError                                   (* any other ValueError *)
| OverflowError                                (* int.to_bytes *)
| IndexError                                   (* bytes indexing *)
| UnicodeEncodeError
| UnicodeDecodeError
| StoreError (signal : StoreSignal).           (* raised by the platform *)

Inductive result (A : Type) : Type :=
| Ok (a : A)
| Raise (e : exn).

Arguments Ok {A} a.
Arguments Raise {A} e.

Definition bind {A B : Type} (r : result A) (k : A -> result B) : result B :=
  match r with
  | Ok a => k a
  | Raise e => Raise e
  end.

Notation "x <- r ;; k" := (bind r (fun x => k))
  (at level 61, r at next level, right associativity).
Notation "' pat <- r ;; k" := (bind r (fun x => match x with pat => k end))
  (at level 61, pat pattern, r at next level, right associativity).

(* ================================================================== *)
(** ** Bytes *)

Definition byte : Type := Byte.byte.
Definition bytes : Type := list byte.

Definition byte_to_nat (b : byte) : nat := N.to_nat (Byte.to_N b).

(** [bytes([n])] for an [n] already known to be in [range(256)]. *)
Definition byte_of_nat (n : nat) : byte :=
  match Byte.of_N (N.of_nat n) with
  | Some b => b
  | None => Byte.x00
  end.

(** The Python slice [raw[a:b]] for non-negative [a] and [b]: it is cut at
    the end of [raw] and empty when [b <= a]. *)
Definition slice (raw : bytes) (a b : nat) : bytes :=
  firstn (b - a) (skipn a raw).

(* ================================================================== *)
(** ** The enumerations of device_path.py *)

Inductive HardwareDevicePathSubtype : Type :=
| HW_PCI | HW_PCCARD | HW_MEMORY_MAPPED | HW_VENDOR | HW_CONTROLLER | HW_BMC.

Inductive AcpiDevicePathSubtype : Type :=
| ACPI_ACPI_DEVICE_PATH | ACPI_EXPANDED_ACPI_DEVICE_PATH
| ACPI_ADR_DEVICE_PATH | ACPI_NVDIMM_DEVICE.

Inductive MessagingDevicePathSubtype : Type :=
| MSG_ATAPI | MSG_SCSI | MSG_FIBRE_CHANNEL | MSG_1394 | MSG_USB
| MSG_I20_RANDOM_BLOCK_STORAGE_CLASS | MSG_INFIBAND | MSG_VENDOR
| MSG_MAC_ADDRESS_FOR_NETWORK_INTERFACE | MSG_IPV4 | MSG_IPV6 | MSG_UART
| MSG_USB_CLASS | MSG_USB_WWID | MSG_DEVICE_LOGICAL_UNIT | MSG_SATA
| MSG_ISCSI | MSG_VLAN | MSG_FIBRE_CHNNEL_EX | MSG_SAS_EX
| MSG_NVM_EXPRESS_NAMESPACE | MSG_UNIVERSAL_RESOURCE_IDENTIFIER | MSG_UFS
| MSG_SD | MSG_BLUETOOTH | MSG_WIFI | MSG_EMMC | MSG_BLUETOOTH_LE | MSG_DNS
| MSG_NVDIMM_OR_REST_SERVICE.

Inductive MediaDevicePathSubtype : Type :=
| HARD_DRIVE | CD_ROM | MEDIA_VENDOR | FILE_PATH | MEDIA_PROTOCOL
| PIWG_FIRMWARE_FILE | PIWG_FIRMWARE_VOLUME | RELATIVE_OFFSET_RANGE
| RAM_DISK_DEVICE_PATH.

Inductive BiosBootSpecificationDevicePathSubtype : Type :=
| VERSION_1_01.

Inductive EndOfHardwareDevicePathSubtype : Type :=
| END_THIS_INSTANCE_OF_DEVICE_PATH | END_ENTIRE_DEVICE_PATH.

(** An enumeration class: its members in definition order and the value of
    each.  [Enum.__call__] looks a value up among the members. *)
Class PyEnum (E : Type) : Type := {
  members : list E;
  value : E -> nat
}.

Definition enum_call {E : Type} `{PyEnum E} (v : nat) : option E :=
  find (fun m => value m =? v) members.

#[export] Instance DevicePathType_enum : PyEnum DevicePathType := {
  members := [HARDWARE_DEVICE_PATH; ACPI_DEVICE_PATH; MESSAGING_DEVICE_PATH;
              MEDIA_DEVICE_PATH; BIOS_BOOT_SPECIFICATION_DEVICE_PATH;
              END_OF_HARDWARE_DEVICE_PATH];
  value t := match t with
             | HARDWARE_DEVICE_PATH => 1
             | ACPI_DEVICE_PATH => 2
             | MESSAGING_DEVICE_PATH => 3
             | MEDIA_DEVICE_PATH => 4
             | BIOS_BOOT_SPECIFICATION_DEVICE_PATH => 5
             | END_OF_HARDWARE_DEVICE_PATH => 127
             end
}.

#[export] Instance HardwareDevicePathSubtype_enum
  : PyEnum HardwareDevicePathSubtype := {
  members := [HW_PCI; HW_PCCARD; HW_MEMORY_MAPPED; HW_VENDOR; HW_CONTROLLER;
              HW_BMC];
  value s := match s with
             | HW_PCI => 1 | HW_PCCARD => 2 | HW_MEMORY_MAPPED => 3
             | HW_VENDOR => 4 | HW_CONTROLLER => 5 | HW_BMC => 6
             end
}.

#[export] Instance AcpiDevicePathSubtype_enum
  : PyEnum AcpiDevicePathSubtype := {
  members := [ACPI_ACPI_DEVICE_PATH; ACPI_EXPANDED_ACPI_DEVICE_PATH;
              ACPI_ADR_DEVICE_PATH; ACPI_NVDIMM_DEVICE];
  value s := match s with
             | ACPI_ACPI_DEVICE_PATH => 1
             | ACPI_EXPANDED_ACPI_DEVICE_PATH => 2
             | ACPI_ADR_DEVICE_PATH => 3
             | ACPI_NVDIMM_DEVICE => 4
             end
}.

#[export] Instance MessagingDevicePathSubtype_enum
  : PyEnum MessagingDevicePathSubtype := {
  members := [MSG_ATAPI; MSG_SCSI; MSG_FIBRE_CHANNEL; MSG_1394; MSG_USB;
              MSG_I20_RANDOM_BLOCK_STORAGE_CLASS; MSG_INFIBAND; MSG_VENDOR;
              MSG_MAC_ADDRESS_FOR_NETWORK_INTERFACE; MSG_IPV4; MSG_IPV6;
              MSG_UART; MSG_USB_CLASS; MSG_USB_WWID; MSG_DEVICE_LOGICAL_UNIT;
              MSG_SATA; MSG_ISCSI; MSG_VLAN; MSG_FIBRE_CHNNEL_EX; MSG_SAS_EX;
              MSG_NVM_EXPRESS_NAMESPACE; MSG_UNIVERSAL_RESOURCE_IDENTIFIER;
              MSG_UFS; MSG_SD; MSG_BLUETOOTH; MSG_WIFI; MSG_EMMC;
              MSG_BLUETOOTH_LE; MSG_DNS; MSG_NVDIMM_OR_REST_SERVICE];
  value s := match s with
             | MSG_ATAPI => 1 | MSG_SCSI => 2 | MSG_FIBRE_CHANNEL => 3
             | MSG_1394 => 4 | MSG_USB => 5
             | MSG_I20_RANDOM_BLOCK_STORAGE_CLASS => 6
             | MSG_INFIBAND => 9 | MSG_VENDOR => 10
             | MSG_MAC_ADDRESS_FOR_NETWORK_INTERFACE => 11
             | MSG_IPV4 => 12 | MSG_IPV6 => 13 | MSG_UART => 14
             | MSG_USB_CLASS => 15 | MSG_USB_WWID => 16
             | MSG_DEVICE_LOGICAL_UNIT => 17 | MSG_SATA => 18
             | MSG_ISCSI => 19 | MSG_VLAN => 20 | MSG_FIBRE_CHNNEL_EX => 21
             | MSG_SAS_EX => 22 | MSG_NVM_EXPRESS_NAMESPACE => 23
             | MSG_UNIVERSAL_RESOURCE_IDENTIFIER => 24 | MSG_UFS => 25
             | MSG_SD => 26 | MSG_BLUETOOTH => 27 | MSG_WIFI => 28
             | MSG_EMMC => 29 | MSG_BLUETOOTH_LE => 30 | MSG_DNS => 31
             | MSG_NVDIMM_OR_REST_SERVICE => 32
             end
}.

#[export] Instance MediaDevicePathSubtype_enum
  : PyEnum MediaDevicePathSubtype := {
  members := [HARD_DRIVE; CD_ROM; MEDIA_VENDOR; FILE_PATH; MEDIA_PROTOCOL;
              PIWG_FIRMWARE_FILE; PIWG_FIRMWARE_VOLUME; RELATIVE_OFFSET_RANGE;
              RAM_DISK_DEVICE_PATH];
  value s := match s with
             | HARD_DRIVE => 1 | CD_ROM => 2 | MEDIA_VENDOR => 3
             | FILE_PATH => 4 | MEDIA_PROTOCOL => 5 | PIWG_FIRMWARE_FILE => 6
             | PIWG_FIRMWARE_VOLUME => 7 | RELATIVE_OFFSET_RANGE => 8
             | RAM_DISK_DEVICE_PATH => 9
             end
}.

#[export] Instance BiosBootSpecificationDevicePathSubtype_enum
  : PyEnum BiosBootSpecificationDevicePathSubtype := {
  members := [VERSION_1_01];
  value s := match s with VERSION_1_01 => 1 end
}.

#[export] Instance EndOfHardwareDevicePathSubtype_enum
  : PyEnum EndOfHardwareDevicePathSubtype := {
  members := [END_THIS_INSTANCE_OF_DEVICE_PATH; END_ENTIRE_DEVICE_PATH];
  value s := match s with
             | END_THIS_INSTANCE_OF_DEVICE_PATH => 1
             | END_ENTIRE_DEVICE_PATH => 255
             end
}.

(** The subtype of a node is a member of one of the six subtype classes. *)
Inductive Subtype : Type :=
| HardwareSubtype (s : HardwareDevicePathSubtype)
| AcpiSubtype (s : AcpiDevicePathSubtype)
| MessagingSubtype (s : MessagingDevicePathSubtype)
| MediaSubtype (s : MediaDevicePathSubtype)
| BiosBootSpecificationSubtype (s : BiosBootSpecificationDevicePathSubtype)
| EndOfHardwareSubtype (s : EndOfHardwareDevicePathSubtype).

Definition Subtype_value (s : Subtype) : nat :=
  match s with
  | HardwareSubtype s => value s
  | AcpiSubtype s => value s
  | MessagingSubtype s => value s
  | MediaSubtype s => value s
  | BiosBootSpecificationSubtype s => value s
  | EndOfHardwareSubtype s => value s
  end.

(** [SUBTYPES_MAPPING[t](v)]: the class mapped to [t], called on [v]. *)
Definition SUBTYPES_MAPPING (t : DevicePathType) (v : nat) : option Subtype :=
  match t with
  | HARDWARE_DEVICE_PATH => option_map HardwareSubtype (enum_call v)
  | ACPI_DEVICE_PATH => option_map AcpiSubtype (enum_call v)
  | MESSAGING_DEVICE_PATH => option_map MessagingSubtype (enum_call v)
  | MEDIA_DEVICE_PATH => option_map MediaSubtype (enum_call v)
  | BIOS_BOOT_SPECIFICATION_DEVICE_PATH =>
      option_map BiosBootSpecificationSubtype (enum_call v)
  | END_OF_HARDWARE_DEVICE_PATH =>
      option_map EndOfHardwareSubtype (enum_call v)
  end.

(* ================================================================== *)
(** ** DevicePath *)

Record DevicePath : Type := mkDevicePath {
  path_type : DevicePathType;
  subtype : Subtype;
  data : bytes
}.

(** [DevicePath.__init__]: both enumeration calls raise [ValueError] on a
    value that is not a member. *)
Definition DevicePath_init (pt st : nat) (d : bytes) : result DevicePath :=
  match enum_call pt with
  | None => Raise (ValueError_enum DevicePathType_class pt)
  | Some t =>
      match SUBTYPES_MAPPING t st with
      | None => Raise (ValueError_enum (Subtype_class t) st)
      | Some s => Ok (mkDevicePath t s d)
      end
  end.

(* ================================================================== *)
(** ** EFI_DEVICE_PATH = struct.Struct("<BBH") *)

Definition EFI_DEVICE_PATH_size : nat := 4.

(** [EFI_DEVICE_PATH.unpack_from(raw, offset)]: [struct.error] unless four
    bytes are there. *)
Definition EFI_DEVICE_PATH_unpack_from (raw : bytes) (offset : nat)
  : result (nat * nat * nat) :=
  match skipn offset raw with
  | b0 :: b1 :: b2 :: b3 :: _ =>
      Ok (byte_to_nat b0, byte_to_nat b1,
          byte_to_nat b2 + 256 * byte_to_nat b3)
  | _ => Raise struct_error
  end.

(** [EFI_DEVICE_PATH.pack(t, s, length)]: [struct.error] when a field does
    not fit its format. *)
Definition EFI_DEVICE_PATH_pack (t s len : nat) : result bytes :=
  if (t <? 256) && (s <? 256) && (len <? 256 * 256)
  then Ok [byte_of_nat t; byte_of_nat s;
           byte_of_nat (len mod 256); byte_of_nat (len / 256)]
  else Raise struct_error.

(* ================================================================== *)
(** ** DevicePathList.from_bytes and DevicePathList.to_bytes *)

(** One iteration of the loop of [from_bytes] at [offset]: the node that is
    appended and the declared length the offset advances by. *)
Definition from_bytes_body (raw : bytes) (offset : nat)
  : result (DevicePath * nat) :=
  '(pt, st, len) <- EFI_DEVICE_PATH_unpack_from raw offset ;;
  let d := slice raw (offset + EFI_DEVICE_PATH_size) (offset + len) in
  p <- DevicePath_init pt st d ;;
  Ok (p, len).

Fixpoint from_bytes_loop (fuel : nat) (raw : bytes) (offset : nat)
  (paths : list DevicePath) : option (result (list DevicePath)) :=
  match fuel with
  | O => None
  | S fuel' =>
      if offset <? length raw then
        match from_bytes_body raw offset with
        | Raise e => Some (Raise e)
        | Ok (p, len) =>
            from_bytes_loop fuel' raw (offset + len) (paths ++ [p])
        end
      else Some (Ok paths)
  end.

Definition from_bytes (fuel : nat) (raw : bytes)
  : option (result (list DevicePath)) :=
  from_bytes_loop fuel raw 0 [].

Fixpoint to_bytes_loop (paths : list DevicePath) (raw : bytes)
  : result bytes :=
  match paths with
  | [] => Ok raw
  | path :: rest =>
      hdr <- EFI_DEVICE_PATH_pack (value (path_type path))
               (Subtype_value (subtype path))
               (EFI_DEVICE_PATH_size + length (data path)) ;;
      to_bytes_loop rest ((raw ++ hdr) ++ data path)
  end.

Definition to_bytes (paths : list DevicePath) : result bytes :=
  to_bytes_loop paths [].

(* ================================================================== *)
(** ** Integers and bytes: int.from_bytes, int.to_bytes, bytes([...]) *)

Definition byte_to_Z (b : byte) : Z := Z.of_nat (byte_to_nat b).
Definition byte_of_Z (z : Z) : byte := byte_of_nat (Z.to_nat z).

(** [int.from_bytes(b, "little")]. *)
Fixpoint int_from_bytes (b : bytes) : Z :=
  match b with
  | [] => 0
  | x :: rest => byte_to_Z x + 256 * int_from_bytes rest
  end.

Fixpoint little_endian (n : nat) (v : Z) : bytes :=
  match n with
  | O => []
  | S k => byte_of_Z (v mod 256) :: little_endian k (v / 256)
  end.

(** [v.to_bytes(n, "little")]: [OverflowError] on a negative [v] and on one
    too big for [n] bytes. *)
Definition int_to_bytes (v : Z) (n : nat) : result bytes :=
  if (0 <=? v)%Z && (v <? 256 ^ Z.of_nat n)%Z
  then Ok (little_endian n v)
  else Raise OverflowError.

(** [bytes([a, b])]: [ValueError] unless both are in [range(256)]. *)
Definition bytes_of_pair (a b : Z) : result bytes :=
  if (0 <=? a)%Z && (a <? 256)%Z && (0 <=? b)%Z && (b <? 256)%Z
  then Ok [byte_of_Z a; byte_of_Z b]
  else Raise ValueError.

(** [d[i]]: [IndexError] past the end. *)
Definition index (d : bytes) (i : nat) : result Z :=
  match nth_error d i with
  | Some b => Ok (byte_to_Z b)
  | None => Raise IndexError
  end.

(* ================================================================== *)
(** ** Text *)

(** A Python [str]: its code points. *)
Definition str : Type := list N.

Definition str_of_string (s : string) : str :=
  map N_of_ascii (list_ascii_of_string s).

(** A code point that UTF-16 can encode: at most U+10FFFF and not a
    surrogate. *)
Definition scalar_value (c : N) : bool :=
  ((c <? 0xD800) || (0xE000 <=? c))%N && (c <=? 0x10FFFF)%N.

Definition hex_digit (upper : bool) (d : N) : N :=
  (if d <? 10 then 48 + d
   else if upper then 65 + (d - 10) else 97 + (d - 10))%N.

(** ** uuid.UUID(bytes_le=...) and str() of it *)

Definition hex_of_byte (b : byte) : str :=
  let n := Byte.to_N b in
  [hex_digit false (n / 16)%N; hex_digit false (n mod 16)%N].

Definition hex_of_bytes (b : bytes) : str := flat_map hex_of_byte b.

(** [str(uuid.UUID(bytes_le=b))].  The constructor raises [ValueError]
    unless [b] has 16 bytes; it reverses the first three fields (4, 2 and 2
    bytes) to obtain the big-endian [bytes], and [str] prints these as 32
    lower-case hexadecimal digits in groups of 8-4-4-4-12. *)
Definition UUID_bytes_le_str (b : bytes) : result str :=
  if length b =? 16 then
    let be := rev (slice b 0 4) ++ rev (slice b 4 6) ++ rev (slice b 6 8)
              ++ slice b 8 16 in
    let dash := str_of_string "-" in
    Ok (hex_of_bytes (slice be 0 4) ++ dash
        ++ hex_of_bytes (slice be 4 6) ++ dash
        ++ hex_of_bytes (slice be 6 8) ++ dash
        ++ hex_of_bytes (slice be 8 10) ++ dash
        ++ hex_of_bytes (slice be 10 16))
  else Raise ValueError.

(* ================================================================== *)
(** ** UTF-16LE: str.encode("utf-16le") and bytes.decode("utf-16le") *)

Definition encode_code_point (c : N) : result (list N) :=
  (if c <? 0xD800 then Ok [c]
   else if c <? 0xE000 then Raise UnicodeEncodeError
   else if c <? 0x10000 then Ok [c]
   else Ok [0xD800 + (c - 0x10000) / 0x400;
            0xDC00 + (c - 0x10000) mod 0x400])%N.

Fixpoint code_units_of_str (s : str) : result (list N) :=
  match s with
  | [] => Ok []
  | c :: rest =>
      us <- encode_code_point c ;;
      more <- code_units_of_str rest ;;
      Ok (us ++ more)
  end.

Definition bytes_of_code_unit (u : N) : bytes :=
  [byte_of_nat (N.to_nat (u mod 256)); byte_of_nat (N.to_nat (u / 256))].

Definition utf16le_encode (s : str) : result bytes :=
  us <- code_units_of_str s ;;
  Ok (flat_map bytes_of_code_unit us).

Fixpoint code_units_of_bytes (raw : bytes) : result (list N) :=
  match raw with
  | [] => Ok []
  | [_] => Raise UnicodeDecodeError
  | b0 :: b1 :: rest =>
      us <- code_units_of_bytes rest ;;
      Ok ((Byte.to_N b0 + 256 * Byte.to_N b1)%N :: us)
  end.

Fixpoint str_of_code_units (us : list N) : result str :=
  match us with
  | [] => Ok []
  | u :: rest =>
      if ((u <? 0xD800) || (0xE000 <=? u))%N then
        cs <- str_of_code_units rest ;; Ok (u :: cs)
      else if (u <? 0xDC00)%N then
        match rest with
        | lo :: rest' =>
            if ((0xDC00 <=? lo) && (lo <? 0xE000))%N then
              cs <- str_of_code_units rest' ;;
              Ok ((0x10000 + (u - 0xD800) * 0x400 + (lo - 0xDC00))%N :: cs)
            else Raise UnicodeDecodeError
        | [] => Raise UnicodeDecodeError
        end
      else Raise UnicodeDecodeError
  end.

Definition utf16le_decode (raw : bytes) : result str :=
  us <- code_units_of_bytes raw ;;
  str_of_code_units us.

(* ================================================================== *)
(** ** The string helpers of utils.py *)

Definition is_null_terminator (b : bytes) : bool :=
  match b with
  | [b0; b1] => Byte.eqb b0 Byte.x00 && Byte.eqb b1 Byte.x00
  | _ => false
  end.

(** Modelled from the spec: [string_to_utf16_bytes] of utils.py, which is
    not among the sources.  "Encoding appends exactly one null terminator
    (two zero bytes) after the text's UTF-16LE encoding." *)
Definition string_to_utf16_bytes (s : str) : result bytes :=
  b <- utf16le_encode s ;;
  Ok (b ++ [Byte.x00; Byte.x00]).

(** Modelled from the spec: [utf16_string_from_bytes] of utils.py, which is
    not among the sources.  "Raw bytes are a UTF-16LE string; decoding
    strips a single trailing null terminator if present and returns the
    text." *)
Definition utf16_string_from_bytes (raw : bytes) : result str :=
  let n := length raw in
  if is_null_terminator (skipn (n - 2) raw)
  then utf16le_decode (firstn (n - 2) raw)
  else utf16le_decode raw.

(* ================================================================== *)
(** ** HardDriveNode and the accessors of DevicePath *)

Record HardDriveNode : Type := mkHardDriveNode {
  partition_number : Z;
  partition_start_lba : Z;
  partition_size_lba : Z;
  partition_signature : bytes;
  partition_guid : option str;
  partition_format : Z;
  signature_type : Z
}.

Definition is_hard_drive (p : DevicePath) : bool :=
  match path_type p, subtype p with
  | MEDIA_DEVICE_PATH, MediaSubtype HARD_DRIVE => true
  | _, _ => false
  end.

Definition get_hard_drive_node (p : DevicePath)
  : result (option HardDriveNode) :=
  if negb (is_hard_drive p) then Ok None
  else
    let d := data p in
    if length d <? 38 then Ok None
    else
      let number := int_from_bytes (slice d 0 4) in
      let start := int_from_bytes (slice d 4 12) in
      let size := int_from_bytes (slice d 12 20) in
      let signature := slice d 20 36 in
      format <- index d 36 ;;
      sigtype <- index d 37 ;;
      guid <- (if (format =? 2)%Z && (sigtype =? 2)%Z
                  && (length signature =? 16)
               then g <- UUID_bytes_le_str signature ;; Ok (Some g)
               else Ok None) ;;
      Ok (Some (mkHardDriveNode number start size signature guid
                  format sigtype)).

(** A method that assigns [self.data] returns the node as it is afterwards
    together with its Python result. *)
Definition set_hard_drive_node (p : DevicePath) (node : HardDriveNode)
  : result (DevicePath * bool) :=
  if negb (is_hard_drive p) then Ok (p, false)
  else
    b_number <- int_to_bytes (partition_number node) 4 ;;
    b_start <- int_to_bytes (partition_start_lba node) 8 ;;
    b_size <- int_to_bytes (partition_size_lba node) 8 ;;
    b_tail <- bytes_of_pair (partition_format node) (signature_type node) ;;
    let d := b_number ++ b_start ++ b_size ++ partition_signature node
             ++ b_tail in
    Ok (mkDevicePath (path_type p) (subtype p) d, true).

Definition is_file_path (p : DevicePath) : bool :=
  match path_type p, subtype p with
  | MEDIA_DEVICE_PATH, MediaSubtype FILE_PATH => true
  | _, _ => false
  end.

Definition get_file_path (p : DevicePath) : result (option str) :=
  if negb (is_file_path p) then Ok None
  else s <- utf16_string_from_bytes (data p) ;; Ok (Some s).

Definition set_file_path (p : DevicePath) (file_path : str)
  : result (DevicePath * bool) :=
  if negb (is_file_path p) then Ok (p, false)
  else
    d <- string_to_utf16_bytes file_path ;;
    Ok (mkDevicePath (path_type p) (subtype p) d, true).

(* ================================================================== *)
(** ** The convenience methods of DevicePathList *)

Fixpoint list_get_file_path (paths : list DevicePath)
  : result (option str) :=
  match paths with
  | [] => Ok None
  | path :: rest =>
      file_path <- get_file_path path ;;
      match file_path with
      | Some s => Ok (Some s)
      | None => list_get_file_path rest
      end
  end.

Fixpoint list_set_file_path (paths : list DevicePath) (file_path : str)
  : result (list DevicePath * bool) :=
  match paths with
  | [] => Ok ([], false)
  | path :: rest =>
      if is_file_path path then
        '(path', r) <- set_file_path path file_path ;;
        Ok (path' :: rest, r)
      else
        '(rest', r) <- list_set_file_path rest file_path ;;
        Ok (path :: rest', r)
  end.

Fixpoint list_get_hard_drive_node (paths : list DevicePath)
  : result (option HardDriveNode) :=
  match paths with
  | [] => Ok None
  | path :: rest =>
      node <- get_hard_drive_node path ;;
      match node with
      | Some n => Ok (Some n)
      | None => list_get_hard_drive_node rest
      end
  end.

Fixpoint list_set_hard_drive_node (paths : list DevicePath)
  (node : HardDriveNode) : result (list DevicePath * bool) :=
  match paths with
  | [] => Ok ([], false)
  | path :: rest =>
      if is_hard_drive path then
        '(path', r) <- set_hard_drive_node path node ;;
        Ok (path' :: rest, r)
      else
        '(rest', r) <- list_set_hard_drive_node rest node ;;
        Ok (path :: rest', r)
  end.

(* ================================================================== *)
(** ** boot.py *)

(** [struct.pack("<h", v)]: [struct.error] unless [v] is a signed 16-bit
    value; two's complement, low byte first. *)
Definition pack_h (v : Z) : result bytes :=
  if (-32768 <=? v)%Z && (v <=? 32767)%Z
  then Ok [byte_of_Z (v mod 256); byte_of_Z ((v / 256) mod 256)]
  else Raise struct_error.

(** [struct.unpack("<h", raw)[0]]: [struct.error] unless [raw] has exactly
    two bytes. *)
Definition unpack_h (raw : bytes) : result Z :=
  match raw with
  | [b0; b1] =>
      let u := (byte_to_Z b0 + 256 * byte_to_Z b1)%Z in
      Ok (if (u <? 32768)%Z then u else (u - 65536)%Z)
  | _ => Raise struct_error
  end.

(** Modelled from the spec: [iter_unpack] of utils.py, which is not among
    the sources, at the format ["<h"].  "Payload is a tightly packed
    sequence of signed 16-bit little-endian entry IDs; get = unpack all."
    Each item is the one field of the tuple that [get_boot_order] reads
    with [e[0]].  The spec is silent on a payload of odd size; the last,
    short chunk is given to [unpack_h] like the others. *)
Fixpoint iter_unpack_h (raw : bytes) : result (list Z) :=
  match raw with
  | [] => Ok []
  | [b0] => e <- unpack_h [b0] ;; Ok [e]
  | b0 :: b1 :: rest =>
      e <- unpack_h [b0; b1] ;;
      es <- iter_unpack_h rest ;;
      Ok (e :: es)
  end.

(** [b"".join(struct.pack("<h", entry_id) for entry_id in entry_ids)]. *)
Fixpoint join_pack_h (entry_ids : list Z) : result bytes :=
  match entry_ids with
  | [] => Ok []
  | entry_id :: rest =>
      b <- pack_h entry_id ;;
      more <- join_pack_h rest ;;
      Ok (b ++ more)
  end.

Fixpoint hex_upper_loop (fuel : nat) (n : N) (acc : str) : str :=
  match fuel with
  | O => acc
  | S fuel' =>
      let acc' := hex_digit true (n mod 16)%N :: acc in
      if (n / 16 =? 0)%N then acc' else hex_upper_loop fuel' (n / 16)%N acc'
  end.

(** The upper-case hexadecimal digits of [n], at least one. *)
Definition hex_upper (n : N) : str :=
  hex_upper_loop (S (N.to_nat (N.log2 n))) n [].

(** ["{:04X}".format(v)]: the sign of a negative [v], then the upper-case
    hexadecimal digits of its magnitude, with zeros between the two up to a
    total width of 4. *)
Definition format_04X (v : Z) : str :=
  let sign := if (v <? 0)%Z then str_of_string "-" else [] in
  let digits := hex_upper (Z.abs_N v) in
  sign ++ repeat 48%N (4 - length sign - length digits) ++ digits.

(** ["Boot{:04X}".format(entry_id)]. *)
Definition boot_entry_name (entry_id : Z) : str :=
  str_of_string "Boot" ++ format_04X entry_id.

(** The variable store that boot.py reaches through [verify_uefi_firmware]
    (utils.py) and [get_variable], [set_variable] (variables.py).  These
    modules are not among the sources and belong to the platform: the
    functions of boot.py are stated over any store [St] with the three
    operations.  [get_variable] returns the value and its attributes;
    [set_variable] returns the store as it is afterwards. *)
Class Firmware (St : Type) : Type := {
  verify_uefi_firmware : St -> result unit;
  get_variable : str -> St -> result (bytes * Z);
  set_variable : str -> bytes -> St -> result St
}.

Definition BootOrder : str := str_of_string "BootOrder".
Definition BootNext : str := str_of_string "BootNext".

Section Boot.
Context {St : Type} `{Firmware St}.

Definition get_boot_order (st : St) : result (list Z) :=
  _ <- verify_uefi_firmware st ;;
  '(raw, _) <- get_variable BootOrder st ;;
  iter_unpack_h raw.

Definition set_boot_order (entry_ids : list Z) (st : St) : result St :=
  _ <- verify_uefi_firmware st ;;
  raw <- join_pack_h entry_ids ;;
  set_variable BootOrder raw st.

Definition get_boot_entry (entry_id : Z) (st : St) : result bytes :=
  _ <- verify_uefi_firmware st ;;
  '(raw, _) <- get_variable (boot_entry_name entry_id) st ;;
  Ok raw.

Definition set_boot_entry (entry_id : Z) (raw : bytes) (st : St)
  : result St :=
  _ <- verify_uefi_firmware st ;;
  set_variable (boot_entry_name entry_id) raw st.

(** The [try] covers the read and the unpacking, not the firmware check;
    [except Exception] catches every member of [exn]. *)
Definition get_boot_next (st : St) : result (option Z) :=
  _ <- verify_uefi_firmware st ;;
  match ('(raw, _) <- get_variable BootNext st ;;
         unpack_h raw) with
  | Ok entry_id => Ok (Some entry_id)
  | Raise _ => Ok None
  end.

Definition set_boot_next (entry_id : Z) (st : St) : result St :=
  _ <- verify_uefi_firmware st ;;
  raw <- pack_h entry_id ;;
  set_variable BootNext raw st.
End Boot.

(** Modelled from the spec: a platform to run the functions of boot.py on,
    in place of variables.py and of [verify_uefi_firmware] of utils.py,
    which are not among the sources.  "[read_variable(name) -> (bytes,
    attributes)], raising a not-found signal if absent;
    [write_variable(name, bytes, attributes)]"; a failed platform check
    "signals [UnsupportedFirmware]"; the collaborator has "not-found /
    access-denied signals".  The record holds the outcome of the platform
    check, the names whose access is denied and the variables present; a
    write puts the variable in front with the attributes 7 (non-volatile,
    boot-service access, runtime access). *)
Record Nvram : Type := mkNvram {
  nv_uefi : bool;
  nv_denied : list str;
  nv_vars : list (str * (bytes * Z))
}.

Fixpoint str_eqb (a b : str) : bool :=
  match a, b with
  | [], [] => true
  | x :: a', y :: b' => (x =? y)%N && str_eqb a' b'
  | _, _ => false
  end.

Fixpoint nv_lookup (name : str) (vars : list (str * (bytes * Z)))
  : option (bytes * Z) :=
  match vars with
  | [] => None
  | (n, v) :: rest => if str_eqb n name then Some v else nv_lookup name rest
  end.

#[export] Instance Nvram_firmware : Firmware Nvram := {
  verify_uefi_firmware st :=
    if nv_uefi st then Ok tt else Raise (StoreError UnsupportedFirmware);
  get_variable name st :=
    if existsb (str_eqb name) (nv_denied st)
    then Raise (StoreError AccessDenied)
    else match nv_lookup name (nv_vars st) with
         | Some v => Ok v
         | None => Raise (StoreError NotFound)
         end;
  set_variable name raw st :=
    if existsb (str_eqb name) (nv_denied st)
    then Raise (StoreError AccessDenied)
    else Ok (mkNvram (nv_uefi st) (nv_denied st)
               ((name, (raw, 7%Z)) :: nv_vars st))
}.

(* ================================================================== *)
(** ** Notions the properties are stated with *)

(** The bytes of one node on the wire: the header, whose length field is
    4 + the payload size, then the payload. *)
Definition node_encoding (p : DevicePath) : bytes :=
  let len := EFI_DEVICE_PATH_size + length (data p) in
  [byte_of_nat (value (path_type p));
   byte_of_nat (Subtype_value (subtype p));
   byte_of_nat (len mod 256); byte_of_nat (len / 256)] ++ data p.

(** Every header met when walking [raw] from [offset] by the declared
    lengths declares at least the header size and at most the bytes that
    are left. *)
Fixpoint framed_loop (fuel : nat) (raw : bytes) (offset : nat) : bool :=
  match fuel with
  | O => false
  | S fuel' =>
      if offset <? length raw then
        match EFI_DEVICE_PATH_unpack_from raw offset with
        | Ok (_, _, len) =>
            (EFI_DEVICE_PATH_size <=? len) && (offset + len <=? length raw)
            && framed_loop fuel' raw (offset + len)
        | Raise _ => false
        end
      else true
  end.

Definition well_framed (raw : bytes) : bool :=
  framed_loop (S (length raw)) raw 0.

(** The same as a relation, without a bound on the number of headers. *)
Inductive Framed (raw : bytes) : nat -> Prop :=
| Framed_end : forall offset, length raw <= offset -> Framed raw offset
| Framed_node : forall offset pt st len,
    offset < length raw ->
    EFI_DEVICE_PATH_unpack_from raw offset = Ok (pt, st, len) ->
    EFI_DEVICE_PATH_size <= len ->
    offset + len <= length raw ->
    Framed raw (offset + len) ->
    Framed raw offset.

(** The offsets at which the loop of [from_bytes] tests its condition. *)
Inductive reaches (raw : bytes) : nat -> Prop :=
| reaches_start : reaches raw 0
| reaches_next : forall offset p len,
    reaches raw offset ->
    offset < length raw ->
    from_bytes_body raw offset = Ok (p, len) ->
    reaches raw (offset + len).

(** The type whose subtype class a subtype is a member of. *)
Definition subtype_class (s : Subtype) : DevicePathType :=
  match s with
  | HardwareSubtype _ => HARDWARE_DEVICE_PATH
  | AcpiSubtype _ => ACPI_DEVICE_PATH
  | MessagingSubtype _ => MESSAGING_DEVICE_PATH
  | MediaSubtype _ => MEDIA_DEVICE_PATH
  | BiosBootSpecificationSubtype _ => BIOS_BOOT_SPECIFICATION_DEVICE_PATH
  | EndOfHardwareSubtype _ => END_OF_HARDWARE_DEVICE_PATH
  end.

Definition with_partition_guid (node : HardDriveNode) (guid : option str)
  : HardDriveNode :=
  mkHardDriveNode (partition_number node) (partition_start_lba node)
    (partition_size_lba node) (partition_signature node) guid
    (partition_format node) (signature_type node).

(** A hard-drive node whose integer fields fit the widths of the layout and
    whose signature has 16 bytes. *)
Definition fits_layout (node : HardDriveNode) : Prop :=
  (0 <= partition_number node < 2 ^ 32)%Z
  /\ (0 <= partition_start_lba node < 2 ^ 64)%Z
  /\ (0 <= partition_size_lba node < 2 ^ 64)%Z
  /\ length (partition_signature node) = 16
  /\ (0 <= partition_format node < 256)%Z
  /\ (0 <= signature_type node < 256)%Z.

Definition is_gpt (node : HardDriveNode) : bool :=
  (partition_format node =? 2)%Z && (signature_type node =? 2)%Z.

(** The two bytes of a signed 16-bit value, low byte first. *)
Definition i16_le (v : Z) : bytes :=
  [byte_of_Z (v mod 256); byte_of_Z ((v / 256) mod 256)].

Definition is_i16 (v : Z) : Prop := (-32768 <= v <= 32767)%Z.

(** The four upper-case hexadecimal digits of [v]. *)
Definition hex4 (v : Z) : str :=
  let n := Z.to_N v in
  [hex_digit true (n / 4096 mod 16)%N; hex_digit true (n / 256 mod 16)%N;
   hex_digit true (n / 16 mod 16)%N; hex_digit true (n mod 16)%N].

(** The header values [pt], [st] are not a known pairing, and [e] is the
    [ValueError] of the enumeration that has no such member: either no
    member of [DevicePathType] has the value [pt], or one has and no member
    of its subtype class has the value [st]. *)
Definition unknown_pairing (pt st : nat) (e : exn) : Prop :=
  ((forall t : DevicePathType, value t <> pt)
   /\ e = ValueError_enum DevicePathType_class pt)
  \/ (exists t : DevicePathType,
        value t = pt
        /\ (forall s, subtype_class s = t -> Subtype_value s <> st)
        /\ e = ValueError_enum (Subtype_class t) st).

Definition upper_hex_digits : str := str_of_string "0123456789ABCDEF".

(** Sample data. *)
Definition sample_path : bytes :=
  [Byte.x04; Byte.x04; Byte.x06; Byte.x00; Byte.x41; Byte.x00;
   Byte.x7f; Byte.xff; Byte.x04; Byte.x00].

Definition sample_paths : list DevicePath :=
  [mkDevicePath MEDIA_DEVICE_PATH (MediaSubtype FILE_PATH)
     [Byte.x41; Byte.x00];
   mkDevicePath END_OF_HARDWARE_DEVICE_PATH
     (EndOfHardwareSubtype END_ENTIRE_DEVICE_PATH) []].

Definition sample_drive : DevicePath :=
  mkDevicePath MEDIA_DEVICE_PATH (MediaSubtype HARD_DRIVE) [].

Definition sample_signature : bytes :=
  [Byte.x00; Byte.x01; Byte.x02; Byte.x03; Byte.x04; Byte.x05; Byte.x06;
   Byte.x07; Byte.x08; Byte.x09; Byte.x0a; Byte.x0b; Byte.x0c; Byte.x0d;
   Byte.x0e; Byte.x0f].

Definition sample_gpt_node : HardDriveNode :=
  mkHardDriveNode 1 2048 1048576 sample_signature None 2 2.

Definition sample_mbr_node_with_guid : HardDriveNode :=
  mkHardDriveNode 1 63 1024 sample_signature (Some (str_of_string "x")) 1 1.

Definition sample_file_node : DevicePath :=
  mkDevicePath MEDIA_DEVICE_PATH (MediaSubtype FILE_PATH) [].

Definition sample_file_path : str :=
  str_of_string "\EFI\BOOT\BOOTX64.EFI".

(** A platform with no variable set, one that refuses to read BootNext,
    one whose BootNext holds three bytes, one whose BootNext holds the id
    3, and one that is not a UEFI platform. *)
Definition nvram_empty : Nvram := mkNvram true [] [].
Definition nvram_denied : Nvram := mkNvram true [BootNext] [].
Definition nvram_malformed : Nvram :=
  mkNvram true [] [(BootNext, ([Byte.x03; Byte.x00; Byte.x00], 7%Z))].
Definition nvram_next_3 : Nvram :=
  mkNvram true [] [(BootNext, ([Byte.x03; Byte.x00], 7%Z))].
Definition nvram_legacy : Nvram := mkNvram false [] [].

(* ================================================================== *)
(** ** DevicePathList.__repr__ *)

(** [self.get_file_path() or "<Custom Location>"]: the empty string counts
    as false. *)
Definition DevicePathList_repr (paths : list DevicePath) : result str :=
  file_path <- list_get_file_path paths ;;
  Ok (match file_path with
      | Some (c :: s) => c :: s
      | _ => str_of_string "<Custom Location>"
      end).

(* ================================================================== *)
(** ** Further notions *)

(** The subtype of the node is a member of the subtype class of its
    type, as for every node that [DevicePath.__init__] builds. *)
Definition in_class (p : DevicePath) : Prop :=
  subtype_class (subtype p) = path_type p.

(** The longest payload whose header length fits 16 bits: 65531 bytes. *)
Definition max_payload : nat := 256 * 256 - 1 - EFI_DEVICE_PATH_size.

(** The length field of the header of the node fits 16 bits. *)
Definition encodable (p : DevicePath) : bool :=
  EFI_DEVICE_PATH_size + length (data p) <? 256 * 256.

(** The node with its payload replaced. *)
Definition with_data (p : DevicePath) (d : bytes) : DevicePath :=
  mkDevicePath (path_type p) (subtype p) d.

(** The integer fields of a hard-drive value fit the widths of the layout;
    nothing is asked of the signature. *)
Definition ints_fit (node : HardDriveNode) : Prop :=
  (0 <= partition_number node < 2 ^ 32)%Z
  /\ (0 <= partition_start_lba node < 2 ^ 64)%Z
  /\ (0 <= partition_size_lba node < 2 ^ 64)%Z
  /\ (0 <= partition_format node < 256)%Z
  /\ (0 <= signature_type node < 256)%Z.

(** A hard-drive node that [get_hard_drive_node] reads: the variant with at
    least 38 bytes of payload. *)
Definition readable_hard_drive (p : DevicePath) : bool :=
  is_hard_drive p && (38 <=? length (data p)).

(** The number a string of upper-case hexadecimal digits denotes. *)
Definition hex_digit_value (c : N) : N :=
  (if c <? 58 then c - 48 else c - 55)%N.

Definition hex_value (s : str) : N :=
  fold_left (fun acc c => (16 * acc + hex_digit_value c)%N) s 0%N.

(** The guid that [get_hard_drive_node] puts beside a signature of 16
    bytes: the UUID string under the (2, 2) gate, absent otherwise. *)
Definition derived_guid (signature : bytes) (format sigtype : Z)
  : option str :=
  if (format =? 2)%Z && (sigtype =? 2)%Z then
    match UUID_bytes_le_str signature with
    | Ok g => Some g
    | Raise _ => None
    end
  else None.

(** The exception that ends [from_bytes] after a header at [offset] that
    declares a length [len] of 2 or 3.  The next header is read at
    [offset + len], inside the four bytes of this one: [struct.error] when
    fewer than four bytes are left there; otherwise, for 2, the type byte
    read is the length byte 02 (ACPI) and the subtype byte is the high
    length byte 00, which no subtype has; for 3, the type byte read is the
    high length byte 00, which no type has. *)
Definition short_length_error (raw : bytes) (offset len : nat) : exn :=
  if length raw <? offset + len + EFI_DEVICE_PATH_size then struct_error
  else if len =? 2 then ValueError_enum (Subtype_class ACPI_DEVICE_PATH) 0
  else ValueError_enum DevicePathType_class 0.

(** The invariant of a hard-drive value: [partition_guid] is populated
    only when (partition_format, signature_type) is (2, 2). *)
Definition guid_invariant (node : HardDriveNode) : Prop :=
  partition_guid node <> None -> is_gpt node = true.

Definition sample_mbr_node : HardDriveNode :=
  mkHardDriveNode 1 63 1024 sample_signature None 1 1.



(* ================================================================== *)
(** * Properties *)

(** ** Bytes *)

Lemma byte_to_nat_lt (b : byte) : byte_to_nat b < 256.
Proof.
  unfold byte_to_nat. pose proof (Byte.to_N_bounded b). lia.
Qed.

Lemma byte_of_to_nat (b : byte) : byte_of_nat (byte_to_nat b) = b.
Proof.
  unfold byte_of_nat, byte_to_nat.
  rewrite N2Nat.id, Byte.of_to_N. reflexivity.
Qed.

Lemma byte_to_of_nat (n : nat) : n < 256 -> byte_to_nat (byte_of_nat n) = n.
Proof.
  intros Hn. unfold byte_of_nat, byte_to_nat.
  destruct (Byte.of_N (N.of_nat n)) as [b|] eqn:E.
  - apply Byte.to_of_N in E. rewrite E. apply Nat2N.id.
  - apply Byte.of_N_None_iff in E. lia.
Qed.

Lemma skipn_cons_inv {A : Type} (n : nat) (l : list A) x rest :
  skipn n l = x :: rest -> skipn (S n) l = rest /\ n < length l.
Proof.
  revert l. induction n as [|n IH]; intros [|y l] E; simpl in *;
    try discriminate.
  - inversion E. split; [reflexivity | lia].
  - destruct (IH _ E) as [E1 E2]. split; [|lia].
    destruct l; simpl in *; auto.
Qed.

Lemma skipn_add {A : Type} (a b : nat) (l : list A) :
  skipn (a + b) l = skipn b (skipn a l).
Proof.
  revert l. induction a as [|a IH]; intros l; simpl; [reflexivity|].
  destruct l; simpl; [now rewrite skipn_nil | apply IH].
Qed.

(** ** Enumerations *)

Lemma find_value_some {E : Type} `{PyEnum E} (v : nat) (m : E) :
  enum_call v = Some m -> value m = v.
Proof.
  unfold enum_call. intros Hf. apply find_some in Hf.
  destruct Hf as [_ Hf]. now apply Nat.eqb_eq in Hf.
Qed.

Lemma enum_call_none {E : Type} `{PyEnum E} (v : nat) (m : E) :
  In m members -> enum_call v = None -> value m <> v.
Proof.
  unfold enum_call. intros Hin Hf Hv.
  pose proof (find_none _ _ Hf _ Hin) as Hn. simpl in Hn.
  apply Nat.eqb_neq in Hn. contradiction.
Qed.

Lemma DevicePathType_members_all (t : DevicePathType) : In t members.
Proof. destruct t; simpl; tauto. Qed.

Lemma SUBTYPES_MAPPING_some t v s :
  SUBTYPES_MAPPING t v = Some s ->
  Subtype_value s = v /\ subtype_class s = t.
Proof.
  destruct t; simpl; intros Hs;
    match type of Hs with
    | option_map _ ?c = _ => destruct c as [m|] eqn:E; [|discriminate]
    end;
    inversion Hs; subst; cbn [Subtype_value subtype_class]; split; auto;
    apply find_value_some; assumption.
Qed.

Lemma SUBTYPES_MAPPING_none t v s :
  SUBTYPES_MAPPING t v = None -> subtype_class s = t -> Subtype_value s <> v.
Proof.
  intros Hn Hc. destruct s as [s|s|s|s|s|s]; simpl in Hc; subst t;
    simpl in Hn;
    match type of Hn with
    | option_map _ ?c = _ => destruct c as [m|] eqn:E; [discriminate|]
    end;
    cbn [Subtype_value]; apply enum_call_none; auto; destruct s; simpl; tauto.
Qed.

Lemma DevicePath_init_ok pt st d p :
  DevicePath_init pt st d = Ok p ->
  value (path_type p) = pt /\ Subtype_value (subtype p) = st
  /\ subtype_class (subtype p) = path_type p /\ data p = d.
Proof.
  unfold DevicePath_init.
  destruct (enum_call pt) as [t|] eqn:Et; [|discriminate].
  destruct (SUBTYPES_MAPPING t st) as [s|] eqn:Es; [|discriminate].
  intros Hp. inversion Hp; subst; simpl.
  apply find_value_some in Et. apply SUBTYPES_MAPPING_some in Es.
  tauto.
Qed.

(** ** The loop of from_bytes *)

Lemma unpack_from_ok raw offset pt st len :
  EFI_DEVICE_PATH_unpack_from raw offset = Ok (pt, st, len) ->
  exists b0 b1 b2 b3 rest,
    skipn offset raw = b0 :: b1 :: b2 :: b3 :: rest
    /\ pt = byte_to_nat b0 /\ st = byte_to_nat b1
    /\ len = byte_to_nat b2 + 256 * byte_to_nat b3.
Proof.
  unfold EFI_DEVICE_PATH_unpack_from.
  destruct (skipn offset raw) as [|b0 [|b1 [|b2 [|b3 rest]]]];
    try discriminate.
  intros Hu. inversion Hu; subst. now exists b0, b1, b2, b3, rest.
Qed.

Lemma unpack_from_room raw offset pt st len :
  EFI_DEVICE_PATH_unpack_from raw offset = Ok (pt, st, len) ->
  offset + 4 <= length raw.
Proof.
  intros Hu. apply unpack_from_ok in Hu.
  destruct Hu as (b0 & b1 & b2 & b3 & rest & Hs & _).
  assert (Hl : length (skipn offset raw) = 4 + length rest)
    by (rewrite Hs; reflexivity).
  rewrite length_skipn in Hl. lia.
Qed.

Lemma unpack_from_short raw offset :
  length raw < offset + 4 ->
  EFI_DEVICE_PATH_unpack_from raw offset = Raise struct_error.
Proof.
  intros Hl. unfold EFI_DEVICE_PATH_unpack_from.
  destruct (skipn offset raw) as [|b0 [|b1 [|b2 [|b3 rest]]]] eqn:Hs;
    try reflexivity.
  assert (Hlen : length (skipn offset raw) = 4 + length rest)
    by (rewrite Hs; reflexivity).
  rewrite length_skipn in Hlen. lia.
Qed.

Lemma from_bytes_body_ok raw offset p len :
  from_bytes_body raw offset = Ok (p, len) ->
  exists pt st,
    EFI_DEVICE_PATH_unpack_from raw offset = Ok (pt, st, len)
    /\ DevicePath_init pt st (slice raw (offset + 4) (offset + len)) = Ok p.
Proof.
  unfold from_bytes_body, bind.
  destruct (EFI_DEVICE_PATH_unpack_from raw offset) as [[[pt st] l]|];
    [|discriminate].
  unfold EFI_DEVICE_PATH_size.
  destruct (DevicePath_init pt st _) as [q|] eqn:Ei; [|discriminate].
  intros Hb. inversion Hb; subst. now exists pt, st.
Qed.

Lemma from_bytes_loop_step fuel raw offset paths p len :
  offset < length raw ->
  from_bytes_body raw offset = Ok (p, len) ->
  from_bytes_loop (S fuel) raw offset paths
  = from_bytes_loop fuel raw (offset + len) (paths ++ [p]).
Proof.
  intros Hlt Hb. simpl.
  apply Nat.ltb_lt in Hlt. rewrite Hlt, Hb. reflexivity.
Qed.

Lemma from_bytes_loop_raise fuel raw offset paths e :
  offset < length raw ->
  from_bytes_body raw offset = Raise e ->
  from_bytes_loop (S fuel) raw offset paths = Some (Raise e).
Proof.
  intros Hlt Hb. simpl.
  apply Nat.ltb_lt in Hlt. rewrite Hlt, Hb. reflexivity.
Qed.

Lemma from_bytes_loop_done fuel raw offset paths :
  length raw <= offset ->
  from_bytes_loop (S fuel) raw offset paths = Some (Ok paths).
Proof.
  intros Hge. simpl.
  destruct (Nat.ltb_spec offset (length raw)); [lia | reflexivity].
Qed.

(** ** to_bytes *)

Lemma DevicePathType_value_lt (t : DevicePathType) : value t < 256.
Proof. destruct t; simpl; lia. Qed.

Lemma Subtype_value_lt (s : Subtype) : Subtype_value s < 256.
Proof. destruct s as [[]|[]|[]|[]|[]|[]]; simpl; lia. Qed.

Lemma to_bytes_loop_inv paths : forall acc r,
  to_bytes_loop paths acc = Ok r -> r = acc ++ flat_map node_encoding paths.
Proof.
  induction paths as [|p paths IH]; intros acc r Hr;
    cbn [to_bytes_loop flat_map] in *.
  - inversion Hr. now rewrite app_nil_r.
  - unfold bind, EFI_DEVICE_PATH_pack in Hr.
    destruct (_ && _); [|discriminate].
    apply IH in Hr. subst r. unfold node_encoding.
    now rewrite <- !app_assoc.
Qed.

Lemma to_bytes_loop_small paths : forall acc,
  Forall (fun p => EFI_DEVICE_PATH_size + length (data p) < 256 * 256) paths ->
  to_bytes_loop paths acc = Ok (acc ++ flat_map node_encoding paths).
Proof.
  induction paths as [|p paths IH]; intros acc Hs;
    cbn [to_bytes_loop flat_map].
  - now rewrite app_nil_r.
  - inversion Hs as [|? ? Hp Hrest]; subst.
    unfold bind, EFI_DEVICE_PATH_pack.
    pose proof (DevicePathType_value_lt (path_type p)) as Ht.
    pose proof (Subtype_value_lt (subtype p)) as Hv.
    apply Nat.ltb_lt in Ht, Hv, Hp. rewrite Ht, Hv, Hp.
    cbn [andb]. rewrite IH by assumption. unfold node_encoding.
    now rewrite <- !app_assoc.
Qed.

(** ** Decoding a well-framed buffer *)

Lemma framed_node_encoding raw offset p len :
  from_bytes_body raw offset = Ok (p, len) ->
  EFI_DEVICE_PATH_size <= len ->
  offset + len <= length raw ->
  EFI_DEVICE_PATH_size + length (data p) = len
  /\ len < 256 * 256
  /\ node_encoding p ++ skipn (offset + len) raw = skipn offset raw.
Proof.
  unfold EFI_DEVICE_PATH_size. intros Hb H4 Hlen.
  apply from_bytes_body_ok in Hb. destruct Hb as (pt & st & Hu & Hi).
  apply unpack_from_ok in Hu.
  destruct Hu as (b0 & b1 & b2 & b3 & rest & Hs & Hpt & Hst & Hl).
  apply DevicePath_init_ok in Hi. destruct Hi as (Hvt & Hvs & _ & Hd).
  assert (Hrest : skipn (offset + 4) raw = rest).
  { rewrite skipn_add, Hs. reflexivity. }
  assert (Hlr : length rest = length raw - (offset + 4)).
  { rewrite <- Hrest. apply length_skipn. }
  assert (Hdl : length (data p) = len - 4).
  { rewrite Hd. unfold slice. rewrite length_firstn, Hrest. lia. }
  pose proof (byte_to_nat_lt b2). pose proof (byte_to_nat_lt b3).
  split; [lia|]. split; [lia|].
  unfold node_encoding, EFI_DEVICE_PATH_size.
  rewrite Hvt, Hvs, Hpt, Hst, Hdl.
  replace (4 + (len - 4)) with len by lia.
  replace (len mod 256) with (byte_to_nat b2) by lia.
  replace (len / 256) with (byte_to_nat b3) by lia.
  rewrite !byte_of_to_nat, Hs. simpl. do 4 f_equal.
  rewrite Hd. unfold slice. rewrite Hrest.
  replace (offset + len) with (offset + 4 + (len - 4)) by lia.
  rewrite skipn_add, Hrest.
  replace (offset + 4 + (len - 4) - (offset + 4)) with (len - 4) by lia.
  apply firstn_skipn.
Qed.

Lemma from_bytes_loop_framed fuel : forall fuel' raw offset acc paths,
  framed_loop fuel' raw offset = true ->
  from_bytes_loop fuel raw offset acc = Some (Ok paths) ->
  exists tail,
    paths = acc ++ tail
    /\ Forall (fun p => EFI_DEVICE_PATH_size + length (data p) < 256 * 256)
         tail
    /\ flat_map node_encoding tail = skipn offset raw.
Proof.
  induction fuel as [|fuel IH]; intros fuel' raw offset acc paths Hf Hd;
    [discriminate|].
  destruct fuel' as [|fuel']; [discriminate|].
  cbn [framed_loop from_bytes_loop] in Hf, Hd.
  destruct (Nat.ltb_spec offset (length raw)) as [Hlt|Hge].
  - destruct (from_bytes_body raw offset) as [[p len]|e] eqn:Hb;
      [|discriminate].
    destruct (from_bytes_body_ok _ _ _ _ Hb) as (pt & st & Hu & _).
    rewrite Hu in Hf.
    apply andb_prop in Hf. destruct Hf as [Hf Hnext].
    apply andb_prop in Hf. destruct Hf as [H4 Hin].
    apply Nat.leb_le in H4, Hin.
    destruct (framed_node_encoding _ _ _ _ Hb H4 Hin) as (Hsz & Hsmall & Henc).
    destruct (IH _ _ _ _ _ Hnext Hd) as (tail & Hp & Hall & Hflat).
    exists (p :: tail). split; [|split].
    + rewrite Hp, <- app_assoc. reflexivity.
    + constructor; [lia | assumption].
    + simpl. rewrite Hflat. exact Henc.
  - inversion Hd; subst. exists []. split; [|split].
    + now rewrite app_nil_r.
    + constructor.
    + simpl. symmetry. now apply skipn_all2.
Qed.

Lemma framed_loop_Framed fuel : forall raw offset,
  framed_loop fuel raw offset = true -> Framed raw offset.
Proof.
  induction fuel as [|fuel IH]; intros raw offset Hf; [discriminate|].
  cbn [framed_loop] in Hf.
  destruct (Nat.ltb_spec offset (length raw)) as [Hlt|Hge];
    [|now apply Framed_end].
  destruct (EFI_DEVICE_PATH_unpack_from raw offset) as [[[pt st] len]|]
    eqn:Hu; [|discriminate].
  apply andb_prop in Hf. destruct Hf as [Hf Hnext].
  apply andb_prop in Hf. destruct Hf as [H4 Hin].
  apply Nat.leb_le in H4, Hin.
  apply Framed_node with (pt := pt) (st := st) (len := len); auto.
Qed.

Lemma Framed_framed_loop raw offset :
  Framed raw offset ->
  forall fuel, length raw - offset < fuel ->
  framed_loop fuel raw offset = true.
Proof.
  induction 1 as [offset Hge|offset pt st len Hlt Hu H4 Hin _ IH];
    intros [|fuel] Hfuel; try lia; cbn [framed_loop].
  - destruct (Nat.ltb_spec offset (length raw)); [lia | reflexivity].
  - destruct (Nat.ltb_spec offset (length raw)); [|lia].
    rewrite Hu.
    apply Nat.leb_le in H4 as H4b. apply Nat.leb_le in Hin as Hinb.
    rewrite H4b, Hinb. cbn [andb].
    apply IH. unfold EFI_DEVICE_PATH_size in H4. lia.
Qed.

Lemma well_framed_iff raw : well_framed raw = true <-> Framed raw 0.
Proof.
  unfold well_framed. split.
  - apply framed_loop_Framed.
  - intros Hf. apply Framed_framed_loop; [assumption | lia].
Qed.

(** C1 (as amended).  For every buffer in which each header met on the way
    declares a length of at least 4 that stays within the buffer: when
    [from_bytes] returns a list, [to_bytes] of that list returns the buffer
    itself, and it is the concatenation, in list order, of the encodings of
    the nodes (header with length 4 + payload size, then payload), with
    nothing added after the last node. *)
Theorem to_bytes_from_bytes_framed (fuel : nat) (raw : bytes)
  (paths : list DevicePath) :
  well_framed raw = true ->
  from_bytes fuel raw = Some (Ok paths) ->
  to_bytes paths = Ok raw /\ raw = flat_map node_encoding paths.
Proof.
  unfold well_framed, from_bytes, to_bytes. intros Hf Hd.
  destruct (from_bytes_loop_framed fuel _ raw 0 [] paths Hf Hd) as (tail & Hp & Hall & Hfl).
  simpl in Hp, Hfl. subst tail.
  rewrite to_bytes_loop_small by assumption. simpl.
  rewrite Hfl. split; reflexivity.
Qed.

(** A well-framed buffer is decoded, or rejected for an unknown type or
    subtype, within [length raw + 1] iterations. *)
Lemma from_bytes_loop_framed_total fuel : forall fuel' raw offset acc,
  framed_loop fuel' raw offset = true ->
  length raw - offset < fuel ->
  exists r, from_bytes_loop fuel raw offset acc = Some r.
Proof.
  induction fuel as [|fuel IH]; intros fuel' raw offset acc Hf Hm; [lia|].
  destruct fuel' as [|fuel']; [discriminate|].
  cbn [framed_loop from_bytes_loop] in Hf |- *.
  destruct (Nat.ltb_spec offset (length raw)) as [Hlt|Hge];
    [|eexists; reflexivity].
  destruct (from_bytes_body raw offset) as [[p len]|e] eqn:Hb;
    [|eexists; reflexivity].
  destruct (from_bytes_body_ok _ _ _ _ Hb) as (pt & st & Hu & _).
  rewrite Hu in Hf.
  apply andb_prop in Hf. destruct Hf as [Hf Hnext].
  apply andb_prop in Hf. destruct Hf as [H4 Hin].
  apply Nat.leb_le in H4, Hin. unfold EFI_DEVICE_PATH_size in H4.
  apply (IH _ _ _ _ Hnext). lia.
Qed.

Lemma to_bytes_from_bytes_framed_witness :
  well_framed sample_path = true
  /\ from_bytes 3 sample_path = Some (Ok sample_paths)
  /\ to_bytes sample_paths = Ok sample_path.
Proof.
  split; [reflexivity|]. split; [reflexivity|].
  apply (to_bytes_from_bytes_framed 3 sample_path); reflexivity.
Defined.

(** C1 as stated fails: a buffer whose one header declares 8 bytes where 4
    are present is decoded, to a node with an empty payload, and the list
    encodes to other bytes. *)
Lemma to_bytes_from_bytes_overrun :
  from_bytes 2 [Byte.x01; Byte.x01; Byte.x08; Byte.x00]
  = Some (Ok [mkDevicePath HARDWARE_DEVICE_PATH (HardwareSubtype HW_PCI) []])
  /\ to_bytes [mkDevicePath HARDWARE_DEVICE_PATH (HardwareSubtype HW_PCI) []]
     = Ok [Byte.x01; Byte.x01; Byte.x04; Byte.x00]
  /\ to_bytes [mkDevicePath HARDWARE_DEVICE_PATH (HardwareSubtype HW_PCI) []]
     <> Ok [Byte.x01; Byte.x01; Byte.x08; Byte.x00].
Proof.
  split; [reflexivity|]. split; [reflexivity|]. discriminate.
Qed.

(** ** What from_bytes does with the declared length *)

Lemma from_bytes_body_short_header raw offset p len :
  from_bytes_body raw offset = Ok (p, len) ->
  len = 2 \/ len = 3 ->
  offset + len < length raw
  /\ from_bytes_body raw (offset + len)
     = Raise (short_length_error raw offset len).
Proof.
  intros Hb Hlen.
  destruct (from_bytes_body_ok _ _ _ _ Hb) as (pt & st & Hu & _).
  pose proof (unpack_from_room _ _ _ _ _ Hu) as Hroom.
  split; [lia|].
  apply unpack_from_ok in Hu.
  destruct Hu as (b0 & b1 & b2 & b3 & rest & Hs & _ & _ & Hl).
  pose proof (byte_to_nat_lt b2). pose proof (byte_to_nat_lt b3).
  assert (H3 : byte_to_nat b3 = 0) by lia.
  assert (Hraw : length raw = offset + 4 + length rest).
  { assert (Hlen' : length (skipn offset raw) = 4 + length rest)
      by (rewrite Hs; reflexivity).
    rewrite length_skipn in Hlen'. lia. }
  unfold short_length_error, EFI_DEVICE_PATH_size.
  unfold from_bytes_body, EFI_DEVICE_PATH_unpack_from.
  rewrite skipn_add, Hs.
  destruct Hlen as [Hlen|Hlen]; rewrite Hlen; cbn [skipn Nat.eqb].
  - assert (H2 : byte_to_nat b2 = 2) by lia.
    destruct rest as [|r0 [|r1 rest]]; cbn [bind length] in *.
    + destruct (Nat.ltb_spec (length raw) (offset + 2 + 4));
        [reflexivity | lia].
    + destruct (Nat.ltb_spec (length raw) (offset + 2 + 4));
        [reflexivity | lia].
    + destruct (Nat.ltb_spec (length raw) (offset + 2 + 4)); [lia|].
      rewrite H2, H3. reflexivity.
  - destruct rest as [|r0 [|r1 [|r2 rest]]]; cbn [bind length] in *.
    + destruct (Nat.ltb_spec (length raw) (offset + 3 + 4));
        [reflexivity | lia].
    + destruct (Nat.ltb_spec (length raw) (offset + 3 + 4));
        [reflexivity | lia].
    + destruct (Nat.ltb_spec (length raw) (offset + 3 + 4));
        [reflexivity | lia].
    + destruct (Nat.ltb_spec (length raw) (offset + 3 + 4)); [lia|].
      rewrite H3. reflexivity.
Qed.

(** C2 (as amended).  At an offset the loop reads a header from:
    - with fewer than 4 bytes left, [from_bytes] raises [struct.error];
    - otherwise no check is made on the declared length: the payload is the
      slice [raw[offset+4 : offset+length]] as Python cuts it, the node is
      appended and the loop goes on at [offset + length];
    - hence a header that declares 2 or 3 makes [from_bytes] raise at the
      header read next: [struct.error] when fewer than 4 bytes are left
      there, otherwise the [ValueError] of the subtype lookup (declared
      length 2) or of the type lookup (declared length 3);
    - and a header whose length reaches or passes the end of the buffer
      ends the decoding with a list, the last payload being what is left of
      the buffer. *)
Theorem from_bytes_declared_length (fuel : nat) (raw : bytes) (offset : nat)
  (paths : list DevicePath) :
  offset < length raw ->
  (length raw < offset + 4 ->
   from_bytes_loop (S fuel) raw offset paths = Some (Raise struct_error))
  /\ (forall p len,
        from_bytes_body raw offset = Ok (p, len) ->
        data p = slice raw (offset + 4) (offset + len)
        /\ from_bytes_loop (S fuel) raw offset paths
           = from_bytes_loop fuel raw (offset + len) (paths ++ [p]))
  /\ (forall p len,
        from_bytes_body raw offset = Ok (p, len) ->
        len = 2 \/ len = 3 ->
        from_bytes_loop (S (S fuel)) raw offset paths
        = Some (Raise (short_length_error raw offset len)))
  /\ (forall p len,
        from_bytes_body raw offset = Ok (p, len) ->
        length raw <= offset + len ->
        data p = skipn (offset + 4) raw
        /\ from_bytes_loop (S (S fuel)) raw offset paths
           = Some (Ok (paths ++ [p]))).
Proof.
  intros Hlt. split; [|split; [|split]].
  - intros Hshort. apply from_bytes_loop_raise; [assumption|].
    unfold from_bytes_body. now rewrite unpack_from_short.
  - intros p len Hb. split.
    + destruct (from_bytes_body_ok _ _ _ _ Hb) as (pt & st & _ & Hi).
      now apply DevicePath_init_ok in Hi.
    + now apply from_bytes_loop_step.
  - intros p len Hb Hlen.
    destruct (from_bytes_body_short_header _ _ _ _ Hb Hlen) as (Hin & He).
    rewrite (from_bytes_loop_step _ _ _ _ _ _ Hlt Hb).
    now apply from_bytes_loop_raise.
  - intros p len Hb Hover. split.
    + destruct (from_bytes_body_ok _ _ _ _ Hb) as (pt & st & _ & Hi).
      apply DevicePath_init_ok in Hi. destruct Hi as (_ & _ & _ & Hd).
      rewrite Hd. unfold slice. apply firstn_all2.
      rewrite length_skipn. lia.
    + rewrite (from_bytes_loop_step _ _ _ _ _ _ Hlt Hb).
      now apply from_bytes_loop_done.
Qed.

Lemma from_bytes_declared_length_witness :
  from_bytes 1 [Byte.x04; Byte.x04; Byte.x06] = Some (Raise struct_error)
  /\ from_bytes 2 [Byte.x01; Byte.x01; Byte.x08; Byte.x00; Byte.x2a]
     = Some (Ok [mkDevicePath HARDWARE_DEVICE_PATH (HardwareSubtype HW_PCI)
                   [Byte.x2a]])
  /\ from_bytes 2 [Byte.x01; Byte.x01; Byte.x02; Byte.x00]
     = Some (Raise struct_error)
  /\ from_bytes 2 [Byte.x01; Byte.x01; Byte.x02; Byte.x00; Byte.x01;
                   Byte.x01]
     = Some (Raise (ValueError_enum (Subtype_class ACPI_DEVICE_PATH) 0))
  /\ from_bytes 2 [Byte.x01; Byte.x01; Byte.x03; Byte.x00; Byte.x01;
                   Byte.x01; Byte.x04]
     = Some (Raise (ValueError_enum DevicePathType_class 0)).
Proof.
  split; [|split; [|split; [|split]]].
  - apply (from_bytes_declared_length 0 [Byte.x04; Byte.x04; Byte.x06] 0 []);
      simpl; lia.
  - destruct (from_bytes_declared_length 0
                [Byte.x01; Byte.x01; Byte.x08; Byte.x00; Byte.x2a] 0 []
                ltac:(simpl; lia)) as (_ & _ & _ & Hover).
    destruct (Hover (mkDevicePath HARDWARE_DEVICE_PATH
                       (HardwareSubtype HW_PCI) [Byte.x2a]) 8)
      as [_ Hrun]; [reflexivity | simpl; lia | exact Hrun].
  - destruct (from_bytes_declared_length 0
                [Byte.x01; Byte.x01; Byte.x02; Byte.x00] 0 []
                ltac:(simpl; lia)) as (_ & _ & Hshort & _).
    apply (Hshort (mkDevicePath HARDWARE_DEVICE_PATH
                     (HardwareSubtype HW_PCI) []) 2);
      [reflexivity | now left].
  - destruct (from_bytes_declared_length 0
                [Byte.x01; Byte.x01; Byte.x02; Byte.x00; Byte.x01; Byte.x01]
                0 [] ltac:(simpl; lia)) as (_ & _ & Hshort & _).
    apply (Hshort (mkDevicePath HARDWARE_DEVICE_PATH
                     (HardwareSubtype HW_PCI) []) 2);
      [reflexivity | now left].
  - destruct (from_bytes_declared_length 0
                [Byte.x01; Byte.x01; Byte.x03; Byte.x00; Byte.x01; Byte.x01;
                 Byte.x04]
                0 [] ltac:(simpl; lia)) as (_ & _ & Hshort & _).
    apply (Hshort (mkDevicePath HARDWARE_DEVICE_PATH
                     (HardwareSubtype HW_PCI) []) 3);
      [reflexivity | now right].
Defined.

(** C2 as stated fails: a header that declares 8 bytes where 4 are present
    is accepted, and so is a header that declares 1 byte. *)
Lemma from_bytes_accepts_bad_length :
  from_bytes 2 [Byte.x01; Byte.x01; Byte.x08; Byte.x00]
  = Some (Ok [mkDevicePath HARDWARE_DEVICE_PATH (HardwareSubtype HW_PCI) []])
  /\ from_bytes 3 [Byte.x01; Byte.x01; Byte.x01; Byte.x00; Byte.x01]
     = Some (Ok [mkDevicePath HARDWARE_DEVICE_PATH (HardwareSubtype HW_PCI) [];
                 mkDevicePath HARDWARE_DEVICE_PATH (HardwareSubtype HW_PCI) []]).
Proof. split; reflexivity. Qed.

(** ** Unknown types and subtypes *)

(** C5.  When the type value of a header is the value of no member of
    [DevicePathType], or the subtype value is the value of no member of the
    subtype class of that type, [DevicePath.__init__] raises the
    [ValueError] of that enumeration whatever the payload, and [from_bytes]
    raises it at the offset of that header: no node is built from an
    unknown pairing. *)
Theorem unknown_type_or_subtype_raises (fuel : nat) (raw : bytes)
  (offset : nat) (paths : list DevicePath) (pt st len : nat) (e : exn) :
  offset < length raw ->
  EFI_DEVICE_PATH_unpack_from raw offset = Ok (pt, st, len) ->
  unknown_pairing pt st e ->
  (forall d, DevicePath_init pt st d = Raise e)
  /\ from_bytes_loop (S fuel) raw offset paths = Some (Raise e).
Proof.
  intros Hlt Hu Hunk.
  assert (He : forall d, DevicePath_init pt st d = Raise e).
  { intros d. unfold DevicePath_init.
    destruct Hunk as [[Hno ->]|(t & Ht & Hno & ->)].
    - destruct (enum_call pt) as [t|] eqn:Et; [|reflexivity].
      apply find_value_some in Et. now apply Hno in Et.
    - destruct (enum_call pt) as [t'|] eqn:Et.
      + assert (t' = t).
        { apply find_value_some in Et. rewrite <- Ht in Et.
          destruct t, t'; simpl in Et; try reflexivity; discriminate. }
        subst t'.
        destruct (SUBTYPES_MAPPING t st) as [s|] eqn:Es; [|reflexivity].
        apply SUBTYPES_MAPPING_some in Es. destruct Es as [Ev Ec].
        now apply Hno in Ec.
      + exfalso.
        exact (enum_call_none pt t (DevicePathType_members_all t) Et Ht). }
  split; [exact He|].
  apply from_bytes_loop_raise; [assumption|].
  unfold from_bytes_body. rewrite Hu. cbn [bind]. now rewrite He.
Qed.

Lemma unknown_type_or_subtype_raises_witness :
  from_bytes 1 [Byte.x06; Byte.x01; Byte.x04; Byte.x00]
  = Some (Raise (ValueError_enum DevicePathType_class 6))
  /\ from_bytes 1 [Byte.x04; Byte.x0a; Byte.x04; Byte.x00]
     = Some (Raise (ValueError_enum (Subtype_class MEDIA_DEVICE_PATH) 10)).
Proof.
  split.
  - apply (unknown_type_or_subtype_raises 0
             [Byte.x06; Byte.x01; Byte.x04; Byte.x00] 0 [] 6 1 4).
    + simpl; lia.
    + reflexivity.
    + left. split; [|reflexivity]. intros t. destruct t; simpl; lia.
  - apply (unknown_type_or_subtype_raises 0
             [Byte.x04; Byte.x0a; Byte.x04; Byte.x00] 0 [] 4 10 4).
    + simpl; lia.
    + reflexivity.
    + right. exists MEDIA_DEVICE_PATH. split; [reflexivity|].
      split; [|reflexivity].
      intros s Hs. destruct s as [s|s|s|s|s|s]; try discriminate Hs.
      destruct s; simpl; lia.
Defined.

(** ** Termination of from_bytes *)

Lemma from_bytes_loop_terminates raw :
  (forall offset pt st len,
     reaches raw offset ->
     EFI_DEVICE_PATH_unpack_from raw offset = Ok (pt, st, len) ->
     1 <= len) ->
  forall n offset paths,
    reaches raw offset ->
    length raw - offset < n ->
    exists r, forall fuel,
      n <= fuel -> from_bytes_loop fuel raw offset paths = Some r.
Proof.
  intros Hpos. induction n as [|n IH]; intros offset paths Hr Hm; [lia|].
  destruct (Nat.ltb_spec offset (length raw)) as [Hlt|Hge].
  - destruct (from_bytes_body raw offset) as [[p len]|e] eqn:Hb.
    + destruct (from_bytes_body_ok _ _ _ _ Hb) as (pt & st & Hu & _).
      pose proof (Hpos _ _ _ _ Hr Hu) as Hlen.
      destruct (IH (offset + len) (paths ++ [p])) as (r & Hrun).
      * now apply reaches_next with (p := p).
      * lia.
      * exists r. intros [|fuel] Hfuel; [lia|].
        rewrite (from_bytes_loop_step _ _ _ _ _ _ Hlt Hb).
        apply Hrun. lia.
    + exists (Raise e). intros [|fuel] Hfuel; [lia|].
      now apply from_bytes_loop_raise.
  - exists (Ok paths). intros [|fuel] Hfuel; [lia|].
    now apply from_bytes_loop_done.
Qed.

(** A header that declares length 0 keeps the loop at its offset: no
    amount of fuel ends it. *)
Lemma from_bytes_loop_zero_length fuel : forall raw offset paths p,
  offset < length raw ->
  from_bytes_body raw offset = Ok (p, 0) ->
  from_bytes_loop fuel raw offset paths = None.
Proof.
  induction fuel as [|fuel IH]; intros raw offset paths p Hlt Hb;
    [reflexivity|].
  rewrite (from_bytes_loop_step _ _ _ _ _ _ Hlt Hb).
  rewrite Nat.add_0_r. now apply IH with (p := p).
Qed.

(** C10.  Each iteration of the loop of [from_bytes] that appends a node
    moves the offset by the declared length, so that a header declaring 0
    keeps the loop where it is, for ever.  When every header that
    [from_bytes] reads declares a length of at least 1, the loop ends:
    after at most [length raw + 1] tests of its condition it has returned a
    list or raised. *)
Theorem from_bytes_terminates (raw : bytes) :
  (forall fuel offset paths p len,
     offset < length raw ->
     from_bytes_body raw offset = Ok (p, len) ->
     from_bytes_loop (S fuel) raw offset paths
     = from_bytes_loop fuel raw (offset + len) (paths ++ [p]))
  /\ (forall fuel offset paths p,
        offset < length raw ->
        from_bytes_body raw offset = Ok (p, 0) ->
        from_bytes_loop fuel raw offset paths = None)
  /\ ((forall offset pt st len,
         reaches raw offset ->
         EFI_DEVICE_PATH_unpack_from raw offset = Ok (pt, st, len) ->
         1 <= len) ->
      exists r, forall fuel,
        length raw < fuel -> from_bytes fuel raw = Some r).
Proof.
  split; [|split].
  - intros fuel offset paths p len Hlt Hb. now apply from_bytes_loop_step.
  - intros fuel offset paths p Hlt Hb.
    now apply from_bytes_loop_zero_length with (p := p).
  - intros Hpos.
    destruct (from_bytes_loop_terminates raw Hpos (S (length raw)) 0 [])
      as (r & Hr); [constructor | lia |].
    exists r. intros fuel Hfuel. apply Hr. lia.
Qed.

Lemma reaches_sample_path offset :
  reaches sample_path offset -> offset = 0 \/ offset = 6 \/ offset = 10.
Proof.
  induction 1 as [|offset p len _ IH Hlt Hb]; [now left|].
  destruct IH as [->|[->| ->]].
  - vm_compute in Hb. inversion Hb. right. now left.
  - vm_compute in Hb. inversion Hb. right. now right.
  - simpl in Hlt. lia.
Qed.

Lemma from_bytes_terminates_witness :
  exists r, forall fuel,
    length sample_path < fuel -> from_bytes fuel sample_path = Some r.
Proof.
  destruct (from_bytes_terminates sample_path) as (_ & _ & Hends).
  apply Hends.
  intros offset pt st len Hr Hu.
  destruct (reaches_sample_path offset Hr) as [->|[->| ->]];
    vm_compute in Hu; first [discriminate | inversion Hu; lia].
Defined.

(** ** Integers in little-endian bytes *)

Lemma byte_to_of_Z (z : Z) :
  (0 <= z < 256)%Z -> byte_to_Z (byte_of_Z z) = z.
Proof.
  intros Hz. unfold byte_to_Z, byte_of_Z.
  rewrite byte_to_of_nat by lia. lia.
Qed.

Lemma byte_of_to_Z (b : byte) : byte_of_Z (byte_to_Z b) = b.
Proof.
  unfold byte_to_Z, byte_of_Z. rewrite Nat2Z.id. apply byte_of_to_nat.
Qed.

Lemma byte_to_Z_range (b : byte) : (0 <= byte_to_Z b < 256)%Z.
Proof. unfold byte_to_Z. pose proof (byte_to_nat_lt b). lia. Qed.

Lemma length_little_endian (n : nat) : forall v,
  length (little_endian n v) = n.
Proof. induction n as [|n IH]; intros v; simpl; [|rewrite IH]; reflexivity. Qed.

Lemma int_from_bytes_little_endian (n : nat) : forall v,
  (0 <= v < 256 ^ Z.of_nat n)%Z ->
  int_from_bytes (little_endian n v) = v.
Proof.
  induction n as [|n IH]; intros v Hv.
  - simpl in *. lia.
  - rewrite Nat2Z.inj_succ, Z.pow_succ_r in Hv by lia.
    cbn [little_endian int_from_bytes].
    rewrite byte_to_of_Z by lia. rewrite IH by lia. lia.
Qed.

Lemma int_to_bytes_ok (v : Z) (n : nat) :
  (0 <= v < 256 ^ Z.of_nat n)%Z ->
  int_to_bytes v n = Ok (little_endian n v).
Proof.
  intros Hv. unfold int_to_bytes.
  destruct (Z.leb_spec 0 v); [|lia].
  destruct (Z.ltb_spec v (256 ^ Z.of_nat n)); [reflexivity | lia].
Qed.

Lemma bytes_of_pair_ok (a b : Z) :
  (0 <= a < 256)%Z -> (0 <= b < 256)%Z ->
  bytes_of_pair a b = Ok [byte_of_Z a; byte_of_Z b].
Proof.
  intros Ha Hb. unfold bytes_of_pair.
  destruct (Z.leb_spec 0 a); [|lia]. destruct (Z.ltb_spec a 256); [|lia].
  destruct (Z.leb_spec 0 b); [|lia]. destruct (Z.ltb_spec b 256); [|lia].
  reflexivity.
Qed.

Lemma UUID_bytes_le_str_ok (b : bytes) :
  length b = 16 -> exists g, UUID_bytes_le_str b = Ok g.
Proof.
  intros Hb. unfold UUID_bytes_le_str. rewrite Hb. cbn [Nat.eqb].
  eexists; reflexivity.
Qed.

(** ** The hard-drive view *)

Lemma with_partition_guid_same (node : HardDriveNode) :
  with_partition_guid node (partition_guid node) = node.
Proof. destruct node; reflexivity. Qed.

Lemma is_hard_drive_set (p : DevicePath) (d : bytes) :
  is_hard_drive (mkDevicePath (path_type p) (subtype p) d) = is_hard_drive p.
Proof. reflexivity. Qed.

Lemma set_hard_drive_node_ok (p : DevicePath) (node : HardDriveNode) :
  is_hard_drive p = true ->
  fits_layout node ->
  set_hard_drive_node p node
  = Ok (mkDevicePath (path_type p) (subtype p)
          (little_endian 4 (partition_number node)
           ++ little_endian 8 (partition_start_lba node)
           ++ little_endian 8 (partition_size_lba node)
           ++ partition_signature node
           ++ [byte_of_Z (partition_format node);
               byte_of_Z (signature_type node)]), true).
Proof.
  intros Hhd (Hn & Hs & Hz & Hsig & Hf & Ht).
  unfold set_hard_drive_node. rewrite Hhd. cbn [negb].
  rewrite (int_to_bytes_ok _ 4) by (simpl; lia).
  rewrite !(int_to_bytes_ok _ 8) by (simpl; lia).
  rewrite bytes_of_pair_ok by assumption. reflexivity.
Qed.

Lemma get_hard_drive_node_layout (p : DevicePath) (node : HardDriveNode) :
  is_hard_drive p = true ->
  fits_layout node ->
  data p = little_endian 4 (partition_number node)
           ++ little_endian 8 (partition_start_lba node)
           ++ little_endian 8 (partition_size_lba node)
           ++ partition_signature node
           ++ [byte_of_Z (partition_format node);
               byte_of_Z (signature_type node)] ->
  get_hard_drive_node p
  = (guid <- (if is_gpt node
              then g <- UUID_bytes_le_str (partition_signature node) ;;
                   Ok (Some g)
              else Ok None) ;;
     Ok (Some (with_partition_guid node guid))).
Proof.
  intros Hhd (Hn & Hs & Hz & Hsig & Hf & Ht) Hd.
  destruct node as [number start size sig guid fmt sigtype].
  cbn [partition_number partition_start_lba partition_size_lba
       partition_signature partition_format signature_type] in *.
  do 16 (destruct sig as [|? sig]; [discriminate Hsig|]).
  destruct sig; [|discriminate Hsig].
  unfold get_hard_drive_node. rewrite Hhd, Hd. cbn [negb].
  set (d := _ ++ _).
  assert (Hlen : length d = 38) by reflexivity.
  rewrite Hlen. cbn [Nat.ltb Nat.leb].
  assert (E1 : slice d 0 4 = little_endian 4 number) by reflexivity.
  assert (E2 : slice d 4 12 = little_endian 8 start) by reflexivity.
  assert (E3 : slice d 12 20 = little_endian 8 size) by reflexivity.
  assert (E4 : index d 36 = Ok (byte_to_Z (byte_of_Z fmt))) by reflexivity.
  assert (E5 : index d 37 = Ok (byte_to_Z (byte_of_Z sigtype)))
    by reflexivity.
  rewrite E1, E2, E3, E4, E5.
  rewrite (int_from_bytes_little_endian 4) by (simpl; lia).
  rewrite !(int_from_bytes_little_endian 8) by (simpl; lia).
  rewrite !byte_to_of_Z by assumption.
  cbn [bind]. unfold is_gpt, with_partition_guid.
  cbn [partition_number partition_start_lba partition_size_lba
       partition_signature partition_format signature_type].
  let sig := eval lazy in (slice d 20 36) in
  change (slice d 20 36) with sig.
  cbn [length Nat.eqb]. rewrite andb_true_r. reflexivity.
Qed.

(** For a (Media, HardDrive) node and a hard-drive value whose signature
    has 16 bytes and whose integers fit their widths, whatever its guid:
    [set_hard_drive_node] succeeds and [get_hard_drive_node] then returns a
    value with the same fields apart from [partition_guid], which is
    computed afresh, absent when (partition_format, signature_type) is not
    (2, 2) and the UUID string of the signature when it is. *)
Lemma set_then_get_hard_drive_node (p : DevicePath) (node : HardDriveNode) :
  is_hard_drive p = true ->
  fits_layout node ->
  exists p' node',
    set_hard_drive_node p node = Ok (p', true)
    /\ get_hard_drive_node p' = Ok (Some node')
    /\ node' = with_partition_guid node (partition_guid node')
    /\ (is_gpt node = false ->
        partition_guid node' = None
        /\ (partition_guid node = None -> node' = node))
    /\ (is_gpt node = true ->
        exists g,
          UUID_bytes_le_str (partition_signature node) = Ok g
          /\ partition_guid node' = Some g).
Proof.
  intros Hhd Hfit.
  pose proof (set_hard_drive_node_ok p node Hhd Hfit) as Hset.
  eexists.
  pose proof (get_hard_drive_node_layout
                (mkDevicePath (path_type p) (subtype p) _) node
                Hhd Hfit eq_refl) as Hget.
  destruct (is_gpt node) eqn:Hgpt.
  - destruct Hfit as (_ & _ & _ & Hsig & _).
    destruct (UUID_bytes_le_str_ok _ Hsig) as (g & Hg).
    rewrite Hg in Hget. cbn [bind] in Hget.
    exists (with_partition_guid node (Some g)).
    split; [exact Hset|]. split; [exact Hget|].
    split; [reflexivity|]. split; [discriminate|].
    intros _. exists g. split; [assumption | reflexivity].
  - cbn [bind] in Hget.
    exists (with_partition_guid node None).
    split; [exact Hset|]. split; [exact Hget|].
    split; [reflexivity|]. split; [|discriminate].
    intros _. split; [reflexivity|].
    intros Hnone. rewrite <- Hnone. apply with_partition_guid_same.
Qed.

(** C4.  For every (Media, HardDrive) node and every hard-drive value of
    the data model, whose [partition_guid] is populated only when
    (partition_format, signature_type) is (2, 2), with a signature of
    exactly 16 bytes and integers that fit their widths: after
    [set_hard_drive_node], which succeeds, [get_hard_drive_node] returns a
    value equal to the one set whenever (partition_format, signature_type)
    is not (2, 2); when it is (2, 2) the value returned has the fields set
    and its [partition_guid] is present and is the mixed-endian UUID string
    of the 16 signature bytes. *)
Theorem hard_drive_node_round_trip (p : DevicePath) (node : HardDriveNode) :
  is_hard_drive p = true ->
  fits_layout node ->
  guid_invariant node ->
  exists p' node',
    set_hard_drive_node p node = Ok (p', true)
    /\ get_hard_drive_node p' = Ok (Some node')
    /\ (is_gpt node = false -> node' = node)
    /\ (is_gpt node = true ->
        node' = with_partition_guid node (partition_guid node')
        /\ exists g,
             UUID_bytes_le_str (partition_signature node) = Ok g
             /\ partition_guid node' = Some g).
Proof.
  intros Hhd Hfit Hinv.
  destruct (set_then_get_hard_drive_node p node Hhd Hfit)
    as (p' & node' & Hset & Hget & Hfields & Hother & Hgpt).
  exists p', node'. split; [exact Hset|]. split; [exact Hget|]. split.
  - intros Hno. destruct (Hother Hno) as [_ Heq]. apply Heq.
    unfold guid_invariant in Hinv.
    destruct (partition_guid node) as [g|]; [|reflexivity].
    rewrite Hinv in Hno by discriminate. discriminate Hno.
  - intros Hyes. split; [exact Hfields | now apply Hgpt].
Qed.

Lemma hard_drive_node_round_trip_witness :
  (exists p' node',
     set_hard_drive_node sample_drive sample_gpt_node = Ok (p', true)
     /\ get_hard_drive_node p' = Ok (Some node')
     /\ partition_guid node'
        = Some (str_of_string "03020100-0504-0706-0809-0a0b0c0d0e0f"))
  /\ (exists p',
        set_hard_drive_node sample_drive sample_mbr_node = Ok (p', true)
        /\ get_hard_drive_node p' = Ok (Some sample_mbr_node)).
Proof.
  split.
  - destruct (hard_drive_node_round_trip sample_drive sample_gpt_node)
      as (p' & node' & Hset & Hget & _ & Hgpt).
    + reflexivity.
    + unfold fits_layout, sample_gpt_node; simpl; lia.
    + intros Hguid. reflexivity.
    + exists p', node'. split; [exact Hset|]. split; [exact Hget|].
      destruct (Hgpt eq_refl) as (_ & g & Hg & Hguid).
      rewrite Hguid. vm_compute in Hg. inversion Hg. reflexivity.
  - destruct (hard_drive_node_round_trip sample_drive sample_mbr_node)
      as (p' & node' & Hset & Hget & Hother & _).
    + reflexivity.
    + unfold fits_layout, sample_mbr_node; simpl; lia.
    + intros Hguid. exfalso. apply Hguid. reflexivity.
    + exists p'. split; [exact Hset|].
      rewrite Hget, (Hother eq_refl). reflexivity.
Defined.

(** The invariant is needed: a value set with a guid under a format other
    than (2, 2), which the dataclass does not forbid, comes back without
    the guid. *)
Lemma hard_drive_node_guid_dropped :
  fits_layout sample_mbr_node_with_guid
  /\ is_gpt sample_mbr_node_with_guid = false
  /\ exists p',
       set_hard_drive_node sample_drive sample_mbr_node_with_guid
       = Ok (p', true)
       /\ get_hard_drive_node p'
          = Ok (Some (with_partition_guid sample_mbr_node_with_guid None))
       /\ get_hard_drive_node p' <> Ok (Some sample_mbr_node_with_guid).
Proof.
  split; [unfold fits_layout; simpl; lia|]. split; [reflexivity|].
  eexists. split; [reflexivity|]. split; [reflexivity|].
  vm_compute. discriminate.
Qed.

(** ** UTF-16LE *)

Lemma byte_to_N_of_nat (n : nat) :
  n < 256 -> Byte.to_N (byte_of_nat n) = N.of_nat n.
Proof.
  intros Hn. pose proof (byte_to_of_nat n Hn) as E.
  unfold byte_to_nat in E. lia.
Qed.

Lemma code_units_of_bytes_of_units (us : list N) :
  Forall (fun u => (u < 65536)%N) us ->
  code_units_of_bytes (flat_map bytes_of_code_unit us) = Ok us.
Proof.
  induction 1 as [|u us Hu _ IH]; [reflexivity|].
  cbn [flat_map bytes_of_code_unit app code_units_of_bytes].
  rewrite IH. cbn [bind].
  rewrite !byte_to_N_of_nat by lia.
  do 2 f_equal. lia.
Qed.

Lemma encode_code_point_scalar (c : N) :
  scalar_value c = true ->
  exists us,
    encode_code_point c = Ok us
    /\ Forall (fun u => (u < 65536)%N) us
    /\ forall more s,
         str_of_code_units more = Ok s ->
         str_of_code_units (us ++ more) = Ok (c :: s).
Proof.
  unfold scalar_value, encode_code_point. intros Hc.
  apply andb_prop in Hc. destruct Hc as [Hc Hmax].
  apply N.leb_le in Hmax.
  destruct (N.ltb_spec c 0xD800) as [Hlo|Hlo].
  - exists [c]. split; [reflexivity|]. split; [repeat constructor; lia|].
    intros more s Hm. cbn [app str_of_code_units].
    destruct (N.ltb_spec c 0xD800); [|lia]. cbn [orb].
    now rewrite Hm.
  - cbn [orb] in Hc. apply N.leb_le in Hc.
    destruct (N.ltb_spec c 0xE000); [lia|].
    destruct (N.ltb_spec c 0x10000) as [Hbmp|Hbmp].
    + exists [c]. split; [reflexivity|]. split; [repeat constructor; lia|].
      intros more s Hm. cbn [app str_of_code_units].
      destruct (N.ltb_spec c 0xD800); [lia|].
      destruct (N.leb_spec 0xE000 c); [|lia]. cbn [orb].
      now rewrite Hm.
    + eexists. split; [reflexivity|].
      split; [repeat constructor; lia|].
      intros more s Hm. cbn [app str_of_code_units].
      set (hi := (0xD800 + (c - 0x10000) / 0x400)%N).
      set (lo := (0xDC00 + (c - 0x10000) mod 0x400)%N).
      assert (Hhi : (0xD800 <= hi < 0xDC00)%N) by (subst hi; lia).
      assert (Hl : (0xDC00 <= lo < 0xE000)%N) by (subst lo; lia).
      destruct (N.ltb_spec hi 0xD800); [lia|].
      destruct (N.leb_spec 0xE000 hi); [lia|]. cbn [orb].
      destruct (N.ltb_spec hi 0xDC00); [|lia].
      destruct (N.leb_spec 0xDC00 lo); [|lia].
      destruct (N.ltb_spec lo 0xE000); [|lia]. cbn [andb].
      rewrite Hm. cbn [bind]. do 2 f_equal. subst hi lo. lia.
Qed.

Lemma code_units_of_str_scalar (s : str) :
  forallb scalar_value s = true ->
  exists us,
    code_units_of_str s = Ok us
    /\ Forall (fun u => (u < 65536)%N) us
    /\ str_of_code_units us = Ok s.
Proof.
  induction s as [|c s IH]; intros Hs.
  - exists []. repeat split. constructor.
  - cbn [forallb] in Hs. apply andb_prop in Hs. destruct Hs as [Hc Hs].
    destruct (IH Hs) as (more & Hmore & Hbound & Hdec).
    destruct (encode_code_point_scalar c Hc) as (us & Hus & Hub & Hround).
    exists (us ++ more). cbn [code_units_of_str].
    rewrite Hus, Hmore. cbn [bind]. split; [reflexivity|].
    split; [now apply Forall_app | now apply Hround].
Qed.

Lemma utf16le_decode_encode (s : str) :
  forallb scalar_value s = true ->
  exists enc, utf16le_encode s = Ok enc /\ utf16le_decode enc = Ok s.
Proof.
  intros Hs. destruct (code_units_of_str_scalar s Hs) as (us & Hus & Hb & Hd).
  exists (flat_map bytes_of_code_unit us).
  unfold utf16le_encode, utf16le_decode. rewrite Hus. cbn [bind].
  split; [reflexivity|].
  rewrite code_units_of_bytes_of_units by assumption. exact Hd.
Qed.

Lemma utf16_string_from_bytes_terminated (enc : bytes) :
  utf16_string_from_bytes (enc ++ [Byte.x00; Byte.x00]) = utf16le_decode enc.
Proof.
  unfold utf16_string_from_bytes.
  rewrite length_app. cbn [length].
  replace (length enc + 2 - 2) with (length enc) by lia.
  rewrite skipn_app, skipn_all, Nat.sub_diag. cbn [skipn app].
  rewrite firstn_app, firstn_all, Nat.sub_diag. cbn [firstn].
  rewrite app_nil_r. reflexivity.
Qed.

(** ** The file-path view *)

Lemma string_round_trip (s : str) :
  forallb scalar_value s = true ->
  exists enc,
    utf16le_encode s = Ok enc
    /\ string_to_utf16_bytes s = Ok (enc ++ [Byte.x00; Byte.x00])
    /\ utf16_string_from_bytes (enc ++ [Byte.x00; Byte.x00]) = Ok s.
Proof.
  intros Hs. destruct (utf16le_decode_encode s Hs) as (enc & He & Hd).
  exists enc. split; [assumption|]. split.
  - unfold string_to_utf16_bytes. now rewrite He.
  - now rewrite utf16_string_from_bytes_terminated.
Qed.

Lemma get_file_path_other (p : DevicePath) :
  is_file_path p = false -> get_file_path p = Ok None.
Proof. intros Hp. unfold get_file_path. now rewrite Hp. Qed.

(** C6.  For every text [s] (a sequence of Unicode scalar values) and every
    (Media, FilePath) node, [set_file_path] succeeds, the payload it writes
    is the UTF-16LE encoding of [s] followed by one null terminator, and
    [get_file_path] then returns [s]; the same holds through the methods of
    [DevicePathList] for a list that has a file-path node. *)
Theorem file_path_round_trip (s : str) :
  forallb scalar_value s = true ->
  (forall p,
     is_file_path p = true ->
     exists p' enc,
       set_file_path p s = Ok (p', true)
       /\ utf16le_encode s = Ok enc
       /\ data p' = enc ++ [Byte.x00; Byte.x00]
       /\ get_file_path p' = Ok (Some s))
  /\ (forall paths,
        existsb is_file_path paths = true ->
        exists paths',
          list_set_file_path paths s = Ok (paths', true)
          /\ list_get_file_path paths' = Ok (Some s)).
Proof.
  intros Hs. destruct (string_round_trip s Hs) as (enc & He & Hset & Hget).
  assert (Hnode : forall p,
            is_file_path p = true ->
            set_file_path p s
            = Ok (mkDevicePath (path_type p) (subtype p)
                    (enc ++ [Byte.x00; Byte.x00]), true)
            /\ get_file_path (mkDevicePath (path_type p) (subtype p)
                                (enc ++ [Byte.x00; Byte.x00]))
               = Ok (Some s)).
  { intros p Hp. split.
    - unfold set_file_path. rewrite Hp, Hset. reflexivity.
    - unfold get_file_path.
      change (is_file_path (mkDevicePath (path_type p) (subtype p)
                              (enc ++ [Byte.x00; Byte.x00])))
        with (is_file_path p).
      rewrite Hp. cbn [negb data]. now rewrite Hget. }
  split.
  - intros p Hp. destruct (Hnode p Hp) as [Hs1 Hs2].
    eexists. exists enc. split; [exact Hs1|]. split; [exact He|].
    split; [reflexivity | exact Hs2].
  - induction paths as [|p paths IH]; intros Hex; [discriminate|].
    cbn [existsb] in Hex. cbn [list_set_file_path].
    destruct (is_file_path p) eqn:Hp.
    + destruct (Hnode p Hp) as [Hs1 Hs2]. rewrite Hs1. cbn [bind].
      eexists. split; [reflexivity|].
      cbn [list_get_file_path]. rewrite Hs2. reflexivity.
    + cbn [orb] in Hex. destruct (IH Hex) as (paths' & Hs1 & Hs2).
      rewrite Hs1. cbn [bind]. eexists. split; [reflexivity|].
      cbn [list_get_file_path]. rewrite (get_file_path_other p Hp).
      exact Hs2.
Qed.

Lemma file_path_round_trip_witness :
  exists p' enc,
    set_file_path sample_file_node sample_file_path = Ok (p', true)
    /\ utf16le_encode sample_file_path = Ok enc
    /\ data p' = enc ++ [Byte.x00; Byte.x00]
    /\ get_file_path p' = Ok (Some sample_file_path).
Proof.
  apply (file_path_round_trip sample_file_path); reflexivity.
Defined.

(** ** Absent values *)












(** ** Boot order *)

Lemma pack_h_ok (v : Z) : is_i16 v -> pack_h v = Ok (i16_le v).
Proof.
  unfold is_i16, pack_h. intros Hv.
  destruct (Z.leb_spec (-32768) v); [|lia].
  destruct (Z.leb_spec v 32767); [reflexivity | lia].
Qed.

Lemma unpack_h_i16_le (v : Z) : is_i16 v -> unpack_h (i16_le v) = Ok v.
Proof.
  unfold is_i16, i16_le, unpack_h. intros Hv.
  rewrite !byte_to_of_Z by lia.
  destruct (Z.ltb_spec (v mod 256 + 256 * ((v / 256) mod 256)) 32768);
    f_equal; lia.
Qed.

Lemma join_pack_h_ok (entry_ids : list Z) :
  Forall is_i16 entry_ids ->
  join_pack_h entry_ids = Ok (flat_map i16_le entry_ids).
Proof.
  induction 1 as [|v ids Hv _ IH]; [reflexivity|].
  cbn [join_pack_h flat_map]. rewrite (pack_h_ok v Hv), IH. reflexivity.
Qed.

Lemma iter_unpack_h_packed (entry_ids : list Z) :
  Forall is_i16 entry_ids ->
  iter_unpack_h (flat_map i16_le entry_ids) = Ok entry_ids.
Proof.
  induction 1 as [|v ids Hv _ IH]; [reflexivity|].
  cbn [flat_map]. unfold i16_le at 1. cbn [app iter_unpack_h].
  fold (i16_le v). rewrite (unpack_h_i16_le v Hv), IH. reflexivity.
Qed.

(** C7.  For every list of signed 16-bit entry ids, on a platform that
    passes the firmware check, [set_boot_order] writes to BootOrder the two
    little-endian bytes of each id, one id after the other in the order of
    the list, and [get_boot_order] on a store whose BootOrder holds these
    bytes returns the list itself. *)
Theorem boot_order_round_trip {St : Type} `{Firmware St}
  (entry_ids : list Z) (st : St) :
  Forall is_i16 entry_ids ->
  verify_uefi_firmware st = Ok tt ->
  join_pack_h entry_ids = Ok (flat_map i16_le entry_ids)
  /\ set_boot_order entry_ids st
     = set_variable BootOrder (flat_map i16_le entry_ids) st
  /\ (forall st' attributes,
        verify_uefi_firmware st' = Ok tt ->
        get_variable BootOrder st'
        = Ok (flat_map i16_le entry_ids, attributes) ->
        get_boot_order st' = Ok entry_ids).
Proof.
  intros Hids Hv. split; [now apply join_pack_h_ok|]. split.
  - unfold set_boot_order. rewrite Hv. cbn [bind].
    now rewrite join_pack_h_ok.
  - intros st' attributes Hv' Hget. unfold get_boot_order.
    rewrite Hv'. cbn [bind]. fold BootOrder. rewrite Hget. cbn [bind].
    now apply iter_unpack_h_packed.
Qed.

Lemma boot_order_round_trip_witness :
  exists st',
    set_boot_order [3; 0; 7; 0; -2]%Z nvram_empty = Ok st'
    /\ get_boot_order st' = Ok [3; 0; 7; 0; -2]%Z.
Proof.
  assert (Hids : Forall is_i16 [3; 0; 7; 0; -2]%Z)
    by (repeat constructor; unfold is_i16; lia).
  destruct (boot_order_round_trip [3; 0; 7; 0; -2]%Z nvram_empty Hids)
    as (_ & Hset & Hget); [reflexivity|].
  eexists. split.
  - rewrite Hset. reflexivity.
  - apply (Hget _ 7%Z); reflexivity.
Defined.

(** ** Boot entries *)

Lemma hex_upper_loop_unroll (fuel : nat) (n : N) (acc : str) :
  hex_upper_loop (S fuel) n acc
  = if (n / 16 =? 0)%N then hex_digit true (n mod 16) :: acc
    else hex_upper_loop fuel (n / 16) (hex_digit true (n mod 16) :: acc).
Proof. reflexivity. Qed.

Lemma hex_upper_fuel (n : N) (k : nat) :
  (2 ^ N.of_nat k <= n)%N -> k <= N.to_nat (N.log2 n).
Proof.
  intros Hn. apply N.log2_le_mono in Hn.
  rewrite N.log2_pow2 in Hn by lia. lia.
Qed.

Ltac hex_step :=
  rewrite hex_upper_loop_unroll;
  match goal with
  | |- context [(?m / 16 =? 0)%N] => destruct (N.eqb_spec (m / 16) 0); try lia
  end.

Lemma hex_upper_u16 (n : N) :
  (n < 65536)%N ->
  hex_upper n
  = if (n <? 16)%N then [hex_digit true (n mod 16)]
    else if (n <? 256)%N then
      [hex_digit true (n / 16 mod 16); hex_digit true (n mod 16)]
    else if (n <? 4096)%N then
      [hex_digit true (n / 256 mod 16); hex_digit true (n / 16 mod 16);
       hex_digit true (n mod 16)]
    else hex4 (Z.of_N n).
Proof.
  intros Hn. unfold hex_upper, hex4. rewrite N2Z.id.
  destruct (N.ltb_spec n 16) as [H1|H1]; [now hex_step|].
  pose proof (hex_upper_fuel n 4 H1) as Hf1.
  destruct (N.ltb_spec n 256) as [H2|H2].
  { destruct (N.to_nat (N.log2 n)) as [|f]; [lia|].
    do 2 hex_step. reflexivity. }
  pose proof (hex_upper_fuel n 8 H2) as Hf2.
  destruct (N.ltb_spec n 4096) as [H3|H3].
  { destruct (N.to_nat (N.log2 n)) as [|[|f]]; try lia.
    do 3 hex_step.
    replace (n / 16 / 16)%N with (n / 256)%N by lia. reflexivity. }
  pose proof (hex_upper_fuel n 12 H3) as Hf3.
  destruct (N.to_nat (N.log2 n)) as [|[|[|f]]]; try lia.
  do 4 hex_step.
  replace (n / 16 / 16 / 16)%N with (n / 4096)%N by lia.
  replace (n / 16 / 16)%N with (n / 256)%N by lia. reflexivity.
Qed.

Lemma format_04X_u16 (v : Z) :
  (0 <= v < 65536)%Z -> format_04X v = hex4 v.
Proof.
  intros Hv. unfold format_04X.
  destruct (Z.ltb_spec v 0); [lia|].
  replace (Z.abs_N v) with (Z.to_N v) by lia.
  rewrite hex_upper_u16 by lia. rewrite Z2N.id by lia.
  unfold hex4.
  destruct (N.ltb_spec (Z.to_N v) 16) as [H1|H1].
  { cbn [length app repeat Nat.sub].
    replace (Z.to_N v / 4096 mod 16)%N with 0%N by lia.
    replace (Z.to_N v / 256 mod 16)%N with 0%N by lia.
    replace (Z.to_N v / 16 mod 16)%N with 0%N by lia. reflexivity. }
  destruct (N.ltb_spec (Z.to_N v) 256) as [H2|H2].
  { cbn [length app repeat Nat.sub].
    replace (Z.to_N v / 4096 mod 16)%N with 0%N by lia.
    replace (Z.to_N v / 256 mod 16)%N with 0%N by lia. reflexivity. }
  destruct (N.ltb_spec (Z.to_N v) 4096) as [H3|H3].
  { cbn [length app repeat Nat.sub].
    replace (Z.to_N v / 4096 mod 16)%N with 0%N by lia. reflexivity. }
  reflexivity.
Qed.

Lemma hex_digit_upper (d : N) :
  (d < 16)%N -> In (hex_digit true d) upper_hex_digits.
Proof.
  intros Hd.
  assert (Hcases : In d [0; 1; 2; 3; 4; 5; 6; 7; 8; 9; 10; 11; 12; 13; 14;
                         15]%N) by (simpl; lia).
  repeat (destruct Hcases as [<-|Hcases]; [vm_compute; tauto|]).
  destruct Hcases.
Qed.

Lemma hex4_upper (v : Z) :
  length (hex4 v) = 4 /\ Forall (fun c => In c upper_hex_digits) (hex4 v).
Proof.
  split; [reflexivity|].
  unfold hex4.
  repeat (apply Forall_cons; [apply hex_digit_upper; lia|]).
  apply Forall_nil.
Qed.

(** For every entry id from 0 to 0xFFFF, [get_boot_entry] reads and
    [set_boot_entry] writes the variable whose name is "Boot" followed by
    the id as exactly four upper-case hexadecimal digits. *)
Theorem boot_entry_variable_name {St : Type} `{Firmware St}
  (entry_id : Z) (raw : bytes) (st : St) :
  (0 <= entry_id < 65536)%Z ->
  let name := str_of_string "Boot" ++ hex4 entry_id in
  length (hex4 entry_id) = 4
  /\ Forall (fun c => In c upper_hex_digits) (hex4 entry_id)
  /\ boot_entry_name entry_id = name
  /\ get_boot_entry entry_id st
     = (_ <- verify_uefi_firmware st ;;
        '(value, _) <- get_variable name st ;;
        Ok value)
  /\ set_boot_entry entry_id raw st
     = (_ <- verify_uefi_firmware st ;; set_variable name raw st).
Proof.
  intros Hid name.
  assert (Hname : boot_entry_name entry_id = name).
  { unfold boot_entry_name, name. now rewrite format_04X_u16. }
  destruct (hex4_upper entry_id) as [Hl Hu].
  split; [exact Hl|]. split; [exact Hu|]. split; [exact Hname|].
  unfold get_boot_entry, set_boot_entry. rewrite Hname. split; reflexivity.
Qed.

Lemma boot_entry_variable_name_examples :
  boot_entry_name 3 = str_of_string "Boot0003"
  /\ boot_entry_name 43981 = str_of_string "BootABCD".
Proof.
  split.
  - apply (boot_entry_variable_name 3 [] nvram_empty). lia.
  - apply (boot_entry_variable_name 43981 [] nvram_empty). lia.
Qed.

(** C9, at the entry id -1.  The name of a boot entry is to be "Boot"
    followed by four upper-case hexadecimal digits for every signed 16-bit
    id.  -1 is such an id ([struct.unpack("<h", ...)] yields it for the
    bytes FF FF), and the name that [get_boot_entry] and [set_boot_entry]
    make for it is "Boot-001", whose last four characters are not all
    hexadecimal digits: [set_boot_entry] writes the variable
    "Boot-001". *)
Lemma boot_entry_name_negative :
  is_i16 (-1)
  /\ unpack_h [Byte.xff; Byte.xff] = Ok (-1)%Z
  /\ boot_entry_name (-1) = str_of_string "Boot-001"
  /\ ~ Forall (fun c => In c upper_hex_digits)
         (skipn 4 (boot_entry_name (-1)))
  /\ set_boot_entry (-1) [Byte.x01] nvram_empty
     = Ok (mkNvram true [] [(str_of_string "Boot-001", ([Byte.x01], 7%Z))]).
Proof.
  split; [unfold is_i16; lia|]. split; [reflexivity|].
  split; [reflexivity|]. split; [|reflexivity].
  intros Hall. inversion Hall as [|c rest Hc _]; subst.
  vm_compute in Hc. repeat (destruct Hc as [Hc|Hc]; [discriminate Hc|]).
  exact Hc.
Qed.

(** ** BootNext *)

(** C3 (as amended).  A failure of the firmware check propagates from
    [get_boot_next].  Once the check has passed, [get_boot_next] never
    raises: it returns the id when BootNext is read and holds exactly two
    bytes, and the absent value whenever the read raises, whatever the
    exception, or the payload is not two bytes long. *)
Theorem get_boot_next_absent {St : Type} `{Firmware St} (st : St) :
  (forall e, verify_uefi_firmware st = Raise e -> get_boot_next st = Raise e)
  /\ (verify_uefi_firmware st = Ok tt ->
      (forall e,
         get_variable BootNext st = Raise e -> get_boot_next st = Ok None)
      /\ (forall raw attributes,
            get_variable BootNext st = Ok (raw, attributes) ->
            get_boot_next st
            = Ok (match unpack_h raw with
                  | Ok entry_id => Some entry_id
                  | Raise _ => None
                  end))).
Proof.
  unfold get_boot_next. fold BootNext. split.
  - intros e He. now rewrite He.
  - intros Hv. rewrite Hv. cbn [bind]. split.
    + intros e He. now rewrite He.
    + intros raw attributes Hget. rewrite Hget. cbn [bind].
      destruct (unpack_h raw); reflexivity.
Qed.

Lemma get_boot_next_absent_witness :
  get_boot_next nvram_legacy = Raise (StoreError UnsupportedFirmware)
  /\ get_boot_next nvram_empty = Ok None
  /\ get_boot_next nvram_next_3 = Ok (Some 3%Z).
Proof.
  split; [|split].
  - apply (get_boot_next_absent nvram_legacy). reflexivity.
  - destruct (get_boot_next_absent nvram_empty) as [_ Hok].
    destruct (Hok eq_refl) as [Hraise _].
    apply (Hraise (StoreError NotFound)). reflexivity.
  - destruct (get_boot_next_absent nvram_next_3) as [_ Hok].
    destruct (Hok eq_refl) as [_ Hread].
    apply (Hread [Byte.x03; Byte.x00] 7%Z). reflexivity.
Defined.

(** C3 as stated fails: when the platform refuses the read of BootNext, and
    when BootNext holds a payload of three bytes, [get_boot_next] returns
    the absent value where the claim has an error. *)
Lemma get_boot_next_swallows_failures :
  get_variable BootNext nvram_denied = Raise (StoreError AccessDenied)
  /\ get_boot_next nvram_denied = Ok None
  /\ get_variable BootNext nvram_malformed
     = Ok ([Byte.x03; Byte.x00; Byte.x00], 7%Z)
  /\ unpack_h [Byte.x03; Byte.x00; Byte.x00] = Raise struct_error
  /\ get_boot_next nvram_malformed = Ok None.
Proof. repeat split. Qed.

(* ================================================================== *)
(** * Further properties of device_path.py *)

(** ** The constructor *)

Lemma enum_call_DevicePathType (t : DevicePathType) :
  enum_call (value t) = Some t.
Proof. destruct t; reflexivity. Qed.

Lemma SUBTYPES_MAPPING_member (s : Subtype) :
  SUBTYPES_MAPPING (subtype_class s) (Subtype_value s) = Some s.
Proof. destruct s as [[]|[]|[]|[]|[]|[]]; reflexivity. Qed.

Lemma DevicePath_init_member (p : DevicePath) :
  in_class p ->
  DevicePath_init (value (path_type p)) (Subtype_value (subtype p)) (data p)
  = Ok p.
Proof.
  destruct p as [t s d]. unfold in_class. cbn [path_type subtype data].
  intros <-. unfold DevicePath_init.
  now rewrite enum_call_DevicePathType, SUBTYPES_MAPPING_member.
Qed.

(** X1.  [DevicePath.__init__] succeeds exactly on the value of a member
    of [DevicePathType] paired with the value of a member of the subtype
    class of that type, and the node it builds has these two members and
    the payload given: no two members of an enumeration share a value. *)
Theorem DevicePath_init_iff (pt st : nat) (d : bytes) (p : DevicePath) :
  DevicePath_init pt st d = Ok p
  <-> value (path_type p) = pt /\ Subtype_value (subtype p) = st
      /\ in_class p /\ data p = d.
Proof.
  split; [apply DevicePath_init_ok|].
  intros (Ht & Hs & Hc & Hd). subst pt st d.
  now apply DevicePath_init_member.
Qed.

(** ** What from_bytes returns *)

Lemma from_bytes_body_node raw offset p len :
  from_bytes_body raw offset = Ok (p, len) ->
  in_class p /\ encodable p = true.
Proof.
  intros Hb.
  destruct (from_bytes_body_ok _ _ _ _ Hb) as (pt & st & Hu & Hi).
  apply DevicePath_init_ok in Hi. destruct Hi as (_ & _ & Hc & Hd).
  split; [exact Hc|].
  apply unpack_from_ok in Hu.
  destruct Hu as (b0 & b1 & b2 & b3 & rest & _ & _ & _ & Hl).
  pose proof (byte_to_nat_lt b2). pose proof (byte_to_nat_lt b3).
  unfold encodable, EFI_DEVICE_PATH_size. apply Nat.ltb_lt.
  rewrite Hd. unfold slice. rewrite length_firstn. lia.
Qed.

Lemma from_bytes_loop_nodes (P : DevicePath -> Prop) fuel :
  forall raw offset acc paths,
    (forall o p len, from_bytes_body raw o = Ok (p, len) -> P p) ->
    Forall P acc ->
    from_bytes_loop fuel raw offset acc = Some (Ok paths) ->
    Forall P paths.
Proof.
  induction fuel as [|fuel IH]; intros raw offset acc paths Hbody Hacc Hrun;
    [discriminate|].
  cbn [from_bytes_loop] in Hrun.
  destruct (offset <? length raw).
  - destruct (from_bytes_body raw offset) as [[p len]|e] eqn:Hb;
      [|discriminate].
    apply (IH _ _ _ _ Hbody) in Hrun; [assumption|].
    apply Forall_app. split; [assumption|].
    constructor; [|constructor]. now apply (Hbody offset p len).
  - now inversion Hrun; subst.
Qed.

Lemma from_bytes_encodable (fuel : nat) (raw : bytes)
  (paths : list DevicePath) :
  from_bytes fuel raw = Some (Ok paths) ->
  Forall in_class paths /\ forallb encodable paths = true.
Proof.
  intros Hrun.
  assert (Hall : Forall (fun p => in_class p /\ encodable p = true) paths).
  { apply (from_bytes_loop_nodes _ fuel raw 0 [] paths);
      [|constructor | exact Hrun].
    intros o p len Hb. now apply (from_bytes_body_node raw o p len). }
  split.
  - eapply Forall_impl; [|exact Hall]. now intros p [Hp _].
  - apply forallb_forall. intros p Hin.
    rewrite Forall_forall in Hall. now destruct (Hall p Hin).
Qed.

(** X2.  Every node of a list that [from_bytes] returns, whatever the
    buffer, has its subtype in the subtype class of its type and a payload
    of at most 65531 bytes, so that its header length fits 16 bits. *)
Theorem from_bytes_nodes (fuel : nat) (raw : bytes)
  (paths : list DevicePath) :
  from_bytes fuel raw = Some (Ok paths) ->
  Forall (fun p => in_class p /\ length (data p) <= max_payload) paths.
Proof.
  intros Hrun.
  destruct (from_bytes_encodable fuel raw paths Hrun) as [Hc He].
  apply Forall_forall. intros p Hin.
  rewrite Forall_forall in Hc. rewrite forallb_forall in He.
  split; [now apply Hc|].
  specialize (He p Hin).
  unfold encodable, EFI_DEVICE_PATH_size in He. apply Nat.ltb_lt in He.
  unfold max_payload, EFI_DEVICE_PATH_size. lia.
Qed.

Lemma from_bytes_nodes_witness :
  Forall (fun p => in_class p /\ length (data p) <= max_payload) sample_paths.
Proof.
  apply (from_bytes_nodes 3 sample_path). reflexivity.
Defined.

(** ** to_bytes *)

Lemma forallb_encodable (paths : list DevicePath) :
  forallb encodable paths = true ->
  Forall (fun p => EFI_DEVICE_PATH_size + length (data p) < 256 * 256) paths.
Proof.
  intros Hall. apply Forall_forall. intros p Hin.
  rewrite forallb_forall in Hall. specialize (Hall p Hin).
  now apply Nat.ltb_lt in Hall.
Qed.

Lemma to_bytes_loop_too_long paths : forall acc,
  forallb encodable paths = false ->
  to_bytes_loop paths acc = Raise struct_error.
Proof.
  induction paths as [|p paths IH]; intros acc Hall; [discriminate|].
  cbn [forallb] in Hall. cbn [to_bytes_loop].
  unfold EFI_DEVICE_PATH_pack.
  pose proof (DevicePathType_value_lt (path_type p)) as Ht.
  pose proof (Subtype_value_lt (subtype p)) as Hv.
  apply Nat.ltb_lt in Ht, Hv. rewrite Ht, Hv. cbn [andb].
  unfold encodable in Hall at 1.
  destruct (EFI_DEVICE_PATH_size + length (data p) <? 256 * 256);
    cbn [bind]; [|reflexivity].
  cbn [andb] in Hall. now apply IH.
Qed.

Lemma to_bytes_encodable (paths : list DevicePath) :
  forallb encodable paths = true ->
  to_bytes paths = Ok (flat_map node_encoding paths).
Proof.
  intros Hall. unfold to_bytes.
  rewrite to_bytes_loop_small by now apply forallb_encodable.
  reflexivity.
Qed.

Lemma to_bytes_too_long (paths : list DevicePath) :
  forallb encodable paths = false -> to_bytes paths = Raise struct_error.
Proof. intros Hall. now apply to_bytes_loop_too_long. Qed.

(** X3.  [to_bytes] returns the encodings of the nodes one after the other,
    in list order, when every payload has at most 65531 bytes; with a
    longer payload anywhere in the list it raises [struct.error]. *)
Theorem to_bytes_spec (paths : list DevicePath) :
  to_bytes paths
  = if forallb encodable paths
    then Ok (flat_map node_encoding paths)
    else Raise struct_error.
Proof.
  destruct (forallb encodable paths) eqn:Hall.
  - now apply to_bytes_encodable.
  - now apply to_bytes_too_long.
Qed.

(** X4.  Encoding distributes over concatenation: [to_bytes] of two lists
    put together is the bytes of the first followed by the bytes of the
    second, and it raises when either part does. *)
Theorem to_bytes_app (l1 l2 : list DevicePath) :
  to_bytes (l1 ++ l2)
  = (b1 <- to_bytes l1 ;; b2 <- to_bytes l2 ;; Ok (b1 ++ b2)).
Proof.
  destruct (forallb encodable l1) eqn:H1, (forallb encodable l2) eqn:H2.
  - rewrite !to_bytes_encodable, flat_map_app;
      try assumption; [reflexivity|].
    rewrite forallb_app, H1, H2. reflexivity.
  - rewrite (to_bytes_encodable l1 H1), (to_bytes_too_long l2 H2).
    apply to_bytes_too_long. rewrite forallb_app, H1, H2. reflexivity.
  - rewrite (to_bytes_too_long l1 H1).
    apply to_bytes_too_long. rewrite forallb_app, H1. reflexivity.
  - rewrite (to_bytes_too_long l1 H1).
    apply to_bytes_too_long. rewrite forallb_app, H1. reflexivity.
Qed.

(** ** Encoding, then decoding *)

Lemma node_encoding_header (p : DevicePath) (rest : bytes) :
  encodable p = true ->
  exists b0 b1 b2 b3,
    node_encoding p ++ rest = b0 :: b1 :: b2 :: b3 :: data p ++ rest
    /\ byte_to_nat b0 = value (path_type p)
    /\ byte_to_nat b1 = Subtype_value (subtype p)
    /\ byte_to_nat b2 + 256 * byte_to_nat b3
       = EFI_DEVICE_PATH_size + length (data p).
Proof.
  unfold encodable. intros He. apply Nat.ltb_lt in He.
  unfold node_encoding. do 4 eexists. split; [reflexivity|].
  pose proof (DevicePathType_value_lt (path_type p)).
  pose proof (Subtype_value_lt (subtype p)).
  rewrite !byte_to_of_nat by lia. repeat split. lia.
Qed.

Lemma from_bytes_body_encoding (pre : bytes) (p : DevicePath) (rest : bytes) :
  in_class p ->
  encodable p = true ->
  from_bytes_body (pre ++ node_encoding p ++ rest) (length pre)
  = Ok (p, length (node_encoding p)).
Proof.
  intros Hc He.
  destruct (node_encoding_header p rest He)
    as (b0 & b1 & b2 & b3 & Henc & H0 & H1 & Hl).
  assert (Hlen : length (node_encoding p)
                 = EFI_DEVICE_PATH_size + length (data p)) by reflexivity.
  unfold from_bytes_body, EFI_DEVICE_PATH_unpack_from.
  rewrite skipn_app, skipn_all, Nat.sub_diag. cbn [skipn app].
  rewrite Henc. cbn [bind]. rewrite H0, H1, Hl, Hlen.
  assert (Hd : slice (pre ++ b0 :: b1 :: b2 :: b3 :: data p ++ rest)
                 (length pre + EFI_DEVICE_PATH_size)
                 (length pre + (EFI_DEVICE_PATH_size + length (data p)))
               = data p).
  { unfold slice, EFI_DEVICE_PATH_size.
    rewrite skipn_add, skipn_app, skipn_all, Nat.sub_diag.
    cbn [skipn app].
    replace (length pre + (4 + length (data p)) - (length pre + 4))
      with (length (data p)) by lia.
    rewrite firstn_app, firstn_all, Nat.sub_diag. cbn [firstn].
    apply app_nil_r. }
  rewrite Hd.
  assert (Hi : DevicePath_init (value (path_type p))
                 (Subtype_value (subtype p)) (data p) = Ok p)
    by now apply DevicePath_init_member.
  rewrite Hi. reflexivity.
Qed.

Lemma from_bytes_loop_encoding (paths : list DevicePath) :
  forall pre acc fuel,
    Forall in_class paths ->
    forallb encodable paths = true ->
    length paths < fuel ->
    from_bytes_loop fuel (pre ++ flat_map node_encoding paths)
      (length pre) acc
    = Some (Ok (acc ++ paths)).
Proof.
  induction paths as [|p paths IH]; intros pre acc fuel Hc He Hfuel;
    (destruct fuel as [|fuel]; [cbn [length] in Hfuel; lia|]).
  - cbn [flat_map]. rewrite !app_nil_r.
    apply from_bytes_loop_done. lia.
  - inversion Hc as [|? ? Hcp Hcs]; subst.
    cbn [forallb] in He. apply andb_prop in He. destruct He as [Hep Hes].
    cbn [flat_map length] in *.
    rewrite (from_bytes_loop_step fuel _ (length pre) acc p
               (length (node_encoding p))).
    + replace (pre ++ node_encoding p ++ flat_map node_encoding paths)
        with ((pre ++ node_encoding p) ++ flat_map node_encoding paths)
        by now rewrite app_assoc.
      rewrite <- length_app.
      rewrite IH by (auto; lia). now rewrite <- app_assoc.
    + rewrite !length_app. unfold node_encoding. cbn [length app]. lia.
    + now apply from_bytes_body_encoding.
Qed.

(** X5.  Decoding what was encoded gives the list back: for a list whose
    nodes have their subtype in the class of their type, when [to_bytes]
    returns bytes, [from_bytes] on these bytes ends within one test of the
    loop per node plus one and returns the list. *)
Theorem from_bytes_to_bytes (paths : list DevicePath) (raw : bytes) :
  Forall in_class paths ->
  to_bytes paths = Ok raw ->
  forall fuel, length paths < fuel -> from_bytes fuel raw = Some (Ok paths).
Proof.
  intros Hc Henc fuel Hfuel.
  destruct (forallb encodable paths) eqn:He;
    [|rewrite (to_bytes_too_long paths He) in Henc; discriminate].
  rewrite (to_bytes_encodable paths He) in Henc.
  inversion Henc; subst raw. unfold from_bytes.
  apply (from_bytes_loop_encoding paths [] [] fuel Hc He Hfuel).
Qed.

Lemma from_bytes_to_bytes_witness :
  from_bytes 3 sample_path = Some (Ok sample_paths).
Proof.
  apply (from_bytes_to_bytes sample_paths sample_path).
  - repeat constructor.
  - reflexivity.
  - simpl; lia.
Defined.

(** X6.  Decoding and encoding again gives a buffer that decodes to the
    same list: for every buffer that [from_bytes] returns a list for,
    [to_bytes] of the list does not raise, and [from_bytes] of its result
    is that list. *)
Theorem from_bytes_normal_form (fuel : nat) (raw : bytes)
  (paths : list DevicePath) :
  from_bytes fuel raw = Some (Ok paths) ->
  exists raw',
    to_bytes paths = Ok raw'
    /\ forall fuel', length paths < fuel' ->
                     from_bytes fuel' raw' = Some (Ok paths).
Proof.
  intros Hrun.
  destruct (from_bytes_encodable fuel raw paths Hrun) as [Hc He].
  exists (flat_map node_encoding paths).
  split; [now apply to_bytes_encodable|].
  intros fuel' Hfuel. unfold from_bytes.
  apply (from_bytes_loop_encoding paths [] [] fuel' Hc He Hfuel).
Qed.

Lemma from_bytes_normal_form_witness :
  exists raw',
    to_bytes [mkDevicePath HARDWARE_DEVICE_PATH (HardwareSubtype HW_PCI) []]
    = Ok raw'
    /\ forall fuel', 1 < fuel' ->
         from_bytes fuel' raw'
         = Some (Ok [mkDevicePath HARDWARE_DEVICE_PATH
                       (HardwareSubtype HW_PCI) []]).
Proof.
  apply (from_bytes_normal_form 2
           [Byte.x01; Byte.x01; Byte.x08; Byte.x00]).
  reflexivity.
Defined.

(** ** Slices and integers *)

Lemma length_slice (d : bytes) (a b : nat) :
  b <= length d -> length (slice d a b) = b - a.
Proof.
  intros Hb. unfold slice. rewrite length_firstn, length_skipn. lia.
Qed.

Lemma firstn_add {A : Type} (n m : nat) : forall l : list A,
  firstn (n + m) l = firstn n l ++ firstn m (skipn n l).
Proof.
  induction n as [|n IH]; intros [|x l]; cbn [Nat.add firstn skipn app];
    try reflexivity.
  - now rewrite firstn_nil.
  - now rewrite IH.
Qed.

Lemma slice_app (d : bytes) (a b c : nat) :
  a <= b -> b <= c -> slice d a b ++ slice d b c = slice d a c.
Proof.
  intros Hab Hbc. unfold slice.
  replace (c - a) with ((b - a) + (c - b)) by lia.
  rewrite firstn_add. f_equal. f_equal.
  rewrite <- skipn_add. f_equal. lia.
Qed.

Lemma slice_nth_error (d : bytes) : forall i b,
  nth_error d i = Some b -> slice d i (S i) = [b].
Proof.
  unfold slice. intros i b Hn.
  replace (S i - i) with 1 by lia.
  revert i Hn. induction d as [|x d IH]; intros [|i] Hn; try discriminate.
  - inversion Hn. reflexivity.
  - cbn [skipn]. now apply IH.
Qed.

Lemma slice_firstn (d : bytes) (n a b : nat) :
  b <= n -> slice (firstn n d) a b = slice d a b.
Proof.
  intros Hb. unfold slice.
  revert d n b Hb. induction a as [|a IH]; intros d n b Hb.
  - cbn [skipn]. rewrite Nat.sub_0_r, firstn_firstn. f_equal. lia.
  - destruct d as [|x d]; [now rewrite firstn_nil|].
    destruct n as [|n]; [replace b with 0 by lia; reflexivity|].
    destruct b as [|b]; [reflexivity|].
    cbn [firstn skipn]. apply (IH d n b). lia.
Qed.

Lemma nth_error_firstn_lt (d : bytes) (n i : nat) :
  i < n -> nth_error (firstn n d) i = nth_error d i.
Proof.
  revert d i. induction n as [|n IH]; intros d i Hi; [lia|].
  destruct d as [|x d]; [reflexivity|].
  destruct i as [|i]; [reflexivity|]. cbn [firstn nth_error].
  apply IH. lia.
Qed.

Lemma int_from_bytes_bound (b : bytes) :
  (0 <= int_from_bytes b < 256 ^ Z.of_nat (length b))%Z.
Proof.
  induction b as [|x b IH]; [simpl; lia|].
  cbn [int_from_bytes length].
  rewrite Nat2Z.inj_succ, Z.pow_succ_r by lia.
  pose proof (byte_to_Z_range x). lia.
Qed.

Lemma little_endian_int_from_bytes (b : bytes) :
  little_endian (length b) (int_from_bytes b) = b.
Proof.
  induction b as [|x b IH]; [reflexivity|].
  cbn [int_from_bytes length little_endian].
  pose proof (byte_to_Z_range x). pose proof (int_from_bytes_bound b).
  replace ((byte_to_Z x + 256 * int_from_bytes b) mod 256)%Z
    with (byte_to_Z x) by lia.
  replace ((byte_to_Z x + 256 * int_from_bytes b) / 256)%Z
    with (int_from_bytes b) by lia.
  now rewrite byte_of_to_Z, IH.
Qed.

(** ** What get_hard_drive_node returns *)

Lemma index_nth_error (d : bytes) (i : nat) (b : byte) :
  nth_error d i = Some b -> index d i = Ok (byte_to_Z b).
Proof. intros Hn. unfold index. now rewrite Hn. Qed.

Lemma get_hard_drive_node_readable (p : DevicePath) :
  readable_hard_drive p = true ->
  exists b36 b37,
    nth_error (data p) 36 = Some b36
    /\ nth_error (data p) 37 = Some b37
    /\ get_hard_drive_node p
       = Ok (Some (mkHardDriveNode
                     (int_from_bytes (slice (data p) 0 4))
                     (int_from_bytes (slice (data p) 4 12))
                     (int_from_bytes (slice (data p) 12 20))
                     (slice (data p) 20 36)
                     (derived_guid (slice (data p) 20 36)
                        (byte_to_Z b36) (byte_to_Z b37))
                     (byte_to_Z b36) (byte_to_Z b37))).
Proof.
  unfold readable_hard_drive. intros Hr.
  apply andb_prop in Hr. destruct Hr as [Hhd Hlen].
  apply Nat.leb_le in Hlen.
  destruct (nth_error (data p) 36) as [b36|] eqn:H36;
    [|apply nth_error_None in H36; lia].
  destruct (nth_error (data p) 37) as [b37|] eqn:H37;
    [|apply nth_error_None in H37; lia].
  exists b36, b37. split; [reflexivity|]. split; [reflexivity|].
  unfold get_hard_drive_node. rewrite Hhd. cbn [negb].
  destruct (Nat.ltb_spec (length (data p)) 38); [lia|].
  rewrite (index_nth_error _ _ _ H36), (index_nth_error _ _ _ H37).
  cbn [bind]. unfold derived_guid.
  rewrite (length_slice (data p) 20 36) by lia.
  change (36 - 20 =? 16) with true. rewrite andb_true_r.
  destruct ((byte_to_Z b36 =? 2)%Z && (byte_to_Z b37 =? 2)%Z);
    [|reflexivity].
  destruct (UUID_bytes_le_str_ok (slice (data p) 20 36)) as (g & Hg);
    [rewrite length_slice; lia|].
  rewrite Hg. reflexivity.
Qed.

Lemma get_hard_drive_node_some (p : DevicePath) (node : HardDriveNode) :
  get_hard_drive_node p = Ok (Some node) -> readable_hard_drive p = true.
Proof.
  unfold get_hard_drive_node, readable_hard_drive.
  destruct (is_hard_drive p); cbn [negb andb]; [|discriminate].
  destruct (Nat.ltb_spec (length (data p)) 38); [discriminate|].
  intros _. apply Nat.leb_le. assumption.
Qed.

Lemma get_hard_drive_node_fits_layout (p : DevicePath)
  (node : HardDriveNode) :
  get_hard_drive_node p = Ok (Some node) -> fits_layout node.
Proof.
  intros Hget. pose proof (get_hard_drive_node_some p node Hget) as Hr.
  destruct (get_hard_drive_node_readable p Hr) as (b36 & b37 & _ & _ & Hn).
  rewrite Hget in Hn. inversion Hn as [Hnode]. clear Hn Hget.
  unfold readable_hard_drive in Hr.
  apply andb_prop in Hr. destruct Hr as [_ Hlen]. apply Nat.leb_le in Hlen.
  unfold fits_layout.
  cbn [partition_number partition_start_lba partition_size_lba
       partition_signature partition_format signature_type].
  pose proof (int_from_bytes_bound (slice (data p) 0 4)) as H1.
  pose proof (int_from_bytes_bound (slice (data p) 4 12)) as H2.
  pose proof (int_from_bytes_bound (slice (data p) 12 20)) as H3.
  rewrite length_slice in H1, H2, H3 by lia.
  pose proof (byte_to_Z_range b36). pose proof (byte_to_Z_range b37).
  assert (Hsig : length (slice (data p) 20 36) = 16)
    by (rewrite length_slice; lia).
  repeat split; simpl in *; try lia; assumption.
Qed.

Lemma get_hard_drive_node_guid (p : DevicePath) (node : HardDriveNode)
  (g : str) :
  get_hard_drive_node p = Ok (Some node) ->
  partition_guid node = Some g ->
  UUID_bytes_le_str (partition_signature node) = Ok g.
Proof.
  intros Hget. pose proof (get_hard_drive_node_some p node Hget) as Hr.
  destruct (get_hard_drive_node_readable p Hr) as (b36 & b37 & _ & _ & Hn).
  rewrite Hget in Hn. inversion Hn as [Hnode]. clear Hn Hget.
  cbn [partition_guid partition_signature]. unfold derived_guid.
  destruct ((byte_to_Z b36 =? 2)%Z && (byte_to_Z b37 =? 2)%Z);
    [|discriminate].
  destruct (UUID_bytes_le_str (slice (data p) 20 36)); [|discriminate].
  now intros [= ->].
Qed.

(** X7.  Every value that [get_hard_drive_node] returns fits the layout:
    its integers are within their widths and its signature has 16 bytes;
    and its [partition_guid] is present exactly when
    (partition_format, signature_type) is (2, 2), in which case it is the
    UUID string of the signature. *)
Theorem get_hard_drive_node_fits (p : DevicePath) (node : HardDriveNode) :
  get_hard_drive_node p = Ok (Some node) ->
  fits_layout node
  /\ (partition_guid node <> None <-> is_gpt node = true)
  /\ (forall g, partition_guid node = Some g ->
                UUID_bytes_le_str (partition_signature node) = Ok g).
Proof.
  intros Hget. pose proof (get_hard_drive_node_some p node Hget) as Hr.
  pose proof Hget as Hget0.
  destruct (get_hard_drive_node_readable p Hr) as (b36 & b37 & _ & _ & Hn).
  rewrite Hget in Hn. inversion Hn as [Hnode]. clear Hn Hget.
  unfold readable_hard_drive in Hr.
  apply andb_prop in Hr. destruct Hr as [_ Hlen]. apply Nat.leb_le in Hlen.
  assert (Hsig : length (slice (data p) 20 36) = 16)
    by (rewrite length_slice; lia).
  split; [|split].
  - rewrite <- Hnode. apply (get_hard_drive_node_fits_layout p).
    now rewrite Hget0, Hnode.
  - unfold is_gpt, derived_guid.
    cbn [partition_guid partition_format signature_type].
    destruct ((byte_to_Z b36 =? 2)%Z && (byte_to_Z b37 =? 2)%Z).
    + destruct (UUID_bytes_le_str_ok _ Hsig) as (g & Hg). rewrite Hg.
      split; [reflexivity | discriminate].
    + split; [congruence | discriminate].
  - intros g Hg. apply (get_hard_drive_node_guid p); [|exact Hg].
    now rewrite Hget0, Hnode.
Qed.

(** X8.  [get_hard_drive_node] reads the first 38 bytes of the payload
    only: bytes after them change nothing in what it returns. *)
Theorem get_hard_drive_node_prefix (p : DevicePath) :
  38 <= length (data p) ->
  get_hard_drive_node (with_data p (firstn 38 (data p)))
  = get_hard_drive_node p.
Proof.
  intros Hlen. destruct (is_hard_drive p) eqn:Hhd.
  - assert (Hr : readable_hard_drive p = true).
    { unfold readable_hard_drive. rewrite Hhd. now apply Nat.leb_le. }
    assert (Hr' : readable_hard_drive (with_data p (firstn 38 (data p)))
                  = true).
    { unfold readable_hard_drive, with_data.
      change (is_hard_drive (mkDevicePath (path_type p) (subtype p)
                               (firstn 38 (data p))))
        with (is_hard_drive p).
      rewrite Hhd. cbn [data andb]. apply Nat.leb_le.
      rewrite length_firstn. lia. }
    destruct (get_hard_drive_node_readable p Hr)
      as (b36 & b37 & H36 & H37 & Hn).
    destruct (get_hard_drive_node_readable _ Hr')
      as (c36 & c37 & G36 & G37 & Hn').
    unfold with_data in G36, G37, Hn'. cbn [data] in G36, G37, Hn'.
    rewrite nth_error_firstn_lt in G36, G37 by lia.
    rewrite H36 in G36. rewrite H37 in G37.
    inversion G36; inversion G37; subst c36 c37.
    rewrite !slice_firstn in Hn' by lia.
    unfold with_data. now rewrite Hn, Hn'.
  - unfold get_hard_drive_node, with_data.
    change (is_hard_drive (mkDevicePath (path_type p) (subtype p)
                             (firstn 38 (data p))))
      with (is_hard_drive p).
    now rewrite Hhd.
Qed.

Lemma get_hard_drive_node_prefix_witness :
  get_hard_drive_node
    (with_data sample_drive
       (firstn 38 (repeat Byte.x02 38 ++ [Byte.xff; Byte.xff])))
  = get_hard_drive_node
      (with_data sample_drive (repeat Byte.x02 38 ++ [Byte.xff; Byte.xff])).
Proof.
  apply (get_hard_drive_node_prefix
           (with_data sample_drive
              (repeat Byte.x02 38 ++ [Byte.xff; Byte.xff]))).
  simpl; lia.
Defined.

(** X9.  Setting the value that was read writes the first 38 bytes of the
    payload back: after [get_hard_drive_node] has returned a value,
    [set_hard_drive_node] with that value succeeds and leaves a payload of
    exactly 38 bytes unchanged, while a longer payload loses its bytes
    after the 38th. *)
Theorem set_get_hard_drive_node (p : DevicePath) (node : HardDriveNode) :
  get_hard_drive_node p = Ok (Some node) ->
  set_hard_drive_node p node
  = Ok (with_data p (firstn 38 (data p)), true).
Proof.
  intros Hget. pose proof (get_hard_drive_node_some p node Hget) as Hr.
  pose proof (get_hard_drive_node_fits_layout p node Hget) as Hfit.
  destruct (get_hard_drive_node_readable p Hr)
    as (b36 & b37 & H36 & H37 & Hn).
  unfold readable_hard_drive in Hr.
  apply andb_prop in Hr. destruct Hr as [Hhd Hlen]. apply Nat.leb_le in Hlen.
  rewrite (set_hard_drive_node_ok p node Hhd Hfit).
  rewrite Hget in Hn. inversion Hn as [Hnode].
  cbn [partition_number partition_start_lba partition_size_lba
       partition_signature partition_format signature_type].
  unfold with_data. do 3 f_equal.
  pose proof (little_endian_int_from_bytes (slice (data p) 0 4)) as E1.
  pose proof (little_endian_int_from_bytes (slice (data p) 4 12)) as E2.
  pose proof (little_endian_int_from_bytes (slice (data p) 12 20)) as E3.
  rewrite length_slice in E1, E2, E3 by lia.
  change (4 - 0) with 4 in E1. change (12 - 4) with 8 in E2.
  change (20 - 12) with 8 in E3.
  rewrite E1, E2, E3, !byte_of_to_Z.
  change [b36; b37] with ([b36] ++ [b37]).
  rewrite <- (slice_nth_error _ _ _ H36), <- (slice_nth_error _ _ _ H37).
  rewrite !slice_app by lia.
  unfold slice. cbn [skipn]. reflexivity.
Qed.

Lemma set_get_hard_drive_node_witness :
  exists node,
    get_hard_drive_node (with_data sample_drive (repeat Byte.x02 38))
    = Ok (Some node)
    /\ set_hard_drive_node (with_data sample_drive (repeat Byte.x02 38)) node
       = Ok (with_data sample_drive (repeat Byte.x02 38), true).
Proof.
  destruct (get_hard_drive_node
              (with_data sample_drive (repeat Byte.x02 38)))
    as [[node|]|e] eqn:Hget; try (vm_compute in Hget; discriminate).
  exists node. split; [reflexivity|].
  apply (set_get_hard_drive_node _ node Hget).
Defined.

Lemma get_hard_drive_node_fits_witness :
  exists node,
    get_hard_drive_node (with_data sample_drive (repeat Byte.x02 38))
    = Ok (Some node)
    /\ fits_layout node
    /\ partition_guid node
       = Some (str_of_string "02020202-0202-0202-0202-020202020202").
Proof.
  destruct (get_hard_drive_node
              (with_data sample_drive (repeat Byte.x02 38)))
    as [[node|]|e] eqn:Hget; try (vm_compute in Hget; discriminate).
  exists node. split; [reflexivity|].
  split; [apply (get_hard_drive_node_fits _ node Hget)|].
  vm_compute in Hget. now inversion Hget.
Defined.

(** ** What set_hard_drive_node accepts *)

Lemma int_to_bytes_raise (v : Z) (n : nat) :
  ~ (0 <= v < 256 ^ Z.of_nat n)%Z -> int_to_bytes v n = Raise OverflowError.
Proof.
  intros Hv. unfold int_to_bytes.
  destruct (Z.leb_spec 0 v); [|reflexivity].
  destruct (Z.ltb_spec v (256 ^ Z.of_nat n)); [lia | reflexivity].
Qed.

Lemma bytes_of_pair_raise (a b : Z) :
  ~ ((0 <= a < 256)%Z /\ (0 <= b < 256)%Z) ->
  bytes_of_pair a b = Raise ValueError.
Proof.
  intros Hab. unfold bytes_of_pair.
  destruct (Z.leb_spec 0 a); [|reflexivity].
  destruct (Z.ltb_spec a 256); [|reflexivity].
  destruct (Z.leb_spec 0 b); [|reflexivity].
  destruct (Z.ltb_spec b 256); [lia | reflexivity].
Qed.

Lemma set_hard_drive_node_payload (p : DevicePath) (node : HardDriveNode) :
  is_hard_drive p = true ->
  ints_fit node ->
  set_hard_drive_node p node
  = Ok (with_data p
          (little_endian 4 (partition_number node)
           ++ little_endian 8 (partition_start_lba node)
           ++ little_endian 8 (partition_size_lba node)
           ++ partition_signature node
           ++ [byte_of_Z (partition_format node);
               byte_of_Z (signature_type node)]), true).
Proof.
  intros Hhd (Hn & Hs & Hz & Hf & Ht).
  unfold set_hard_drive_node. rewrite Hhd. cbn [negb].
  rewrite (int_to_bytes_ok _ 4) by (simpl; lia).
  rewrite !(int_to_bytes_ok _ 8) by (simpl; lia).
  rewrite bytes_of_pair_ok by assumption. reflexivity.
Qed.

(** X10.  [set_hard_drive_node] tests the variant before anything else: on
    a node that is not (Media, HardDrive) it returns False and keeps the
    node, whatever the value given.  On a (Media, HardDrive) node it
    succeeds exactly when the five integers fit their widths; otherwise it
    raises [OverflowError] for partition_number, partition_start_lba or
    partition_size_lba, and [ValueError] for partition_format or
    signature_type when these three fit. *)
Theorem set_hard_drive_node_accepts (p : DevicePath) (node : HardDriveNode) :
  (is_hard_drive p = false -> set_hard_drive_node p node = Ok (p, false))
  /\ (is_hard_drive p = true ->
      ((exists p', set_hard_drive_node p node = Ok (p', true))
       <-> ints_fit node)
      /\ (~ ((0 <= partition_number node < 2 ^ 32)%Z
             /\ (0 <= partition_start_lba node < 2 ^ 64)%Z
             /\ (0 <= partition_size_lba node < 2 ^ 64)%Z) ->
          set_hard_drive_node p node = Raise OverflowError)
      /\ ((0 <= partition_number node < 2 ^ 32)%Z ->
          (0 <= partition_start_lba node < 2 ^ 64)%Z ->
          (0 <= partition_size_lba node < 2 ^ 64)%Z ->
          ~ ((0 <= partition_format node < 256)%Z
             /\ (0 <= signature_type node < 256)%Z) ->
          set_hard_drive_node p node = Raise ValueError)).
Proof.
  split.
  - intros Hhd. unfold set_hard_drive_node. now rewrite Hhd.
  - intros Hhd.
    assert (Hover : ~ ((0 <= partition_number node < 2 ^ 32)%Z
                       /\ (0 <= partition_start_lba node < 2 ^ 64)%Z
                       /\ (0 <= partition_size_lba node < 2 ^ 64)%Z) ->
                    set_hard_drive_node p node = Raise OverflowError).
    { intros Hno. unfold set_hard_drive_node. rewrite Hhd. cbn [negb].
      destruct (Z.leb_spec 0 (partition_number node)) as [H1|H1];
        [destruct (Z.ltb_spec (partition_number node) (2 ^ 32)) as [H2|H2]|];
        try (rewrite int_to_bytes_raise by (simpl; lia); reflexivity).
      rewrite (int_to_bytes_ok _ 4) by (simpl; lia). cbn [bind].
      destruct (Z.leb_spec 0 (partition_start_lba node)) as [H3|H3];
        [destruct (Z.ltb_spec (partition_start_lba node) (2 ^ 64))
           as [H4|H4]|];
        try (rewrite int_to_bytes_raise by (simpl; lia); reflexivity).
      rewrite (int_to_bytes_ok _ 8) by (simpl; lia). cbn [bind].
      rewrite int_to_bytes_raise by (simpl; lia). reflexivity. }
    assert (Hval : (0 <= partition_number node < 2 ^ 32)%Z ->
                   (0 <= partition_start_lba node < 2 ^ 64)%Z ->
                   (0 <= partition_size_lba node < 2 ^ 64)%Z ->
                   ~ ((0 <= partition_format node < 256)%Z
                      /\ (0 <= signature_type node < 256)%Z) ->
                   set_hard_drive_node p node = Raise ValueError).
    { intros Hn Hs Hz Hno. unfold set_hard_drive_node.
      rewrite Hhd. cbn [negb].
      rewrite (int_to_bytes_ok _ 4) by (simpl; lia).
      rewrite !(int_to_bytes_ok _ 8) by (simpl; lia). cbn [bind].
      now rewrite bytes_of_pair_raise. }
    split; [|split; assumption].
    split.
    + intros (p' & Hset).
      destruct (Z.leb_spec 0 (partition_number node));
        [destruct (Z.ltb_spec (partition_number node) (2 ^ 32))|];
        try (rewrite Hover in Hset by lia; discriminate).
      destruct (Z.leb_spec 0 (partition_start_lba node));
        [destruct (Z.ltb_spec (partition_start_lba node) (2 ^ 64))|];
        try (rewrite Hover in Hset by lia; discriminate).
      destruct (Z.leb_spec 0 (partition_size_lba node));
        [destruct (Z.ltb_spec (partition_size_lba node) (2 ^ 64))|];
        try (rewrite Hover in Hset by lia; discriminate).
      destruct (Z.leb_spec 0 (partition_format node));
        [destruct (Z.ltb_spec (partition_format node) 256)|];
        try (rewrite Hval in Hset by lia; discriminate).
      destruct (Z.leb_spec 0 (signature_type node));
        [destruct (Z.ltb_spec (signature_type node) 256)|];
        try (rewrite Hval in Hset by lia; discriminate).
      unfold ints_fit. lia.
    + intros Hfit. eexists. now apply set_hard_drive_node_payload.
Qed.

Lemma set_hard_drive_node_accepts_witness :
  set_hard_drive_node sample_file_node sample_gpt_node
  = Ok (sample_file_node, false)
  /\ set_hard_drive_node sample_drive
       (mkHardDriveNode (-1) 0 0 sample_signature None 2 2)
     = Raise OverflowError
  /\ set_hard_drive_node sample_drive
       (mkHardDriveNode 1 0 0 sample_signature None 256 2)
     = Raise ValueError.
Proof.
  split; [|split].
  - apply (set_hard_drive_node_accepts sample_file_node sample_gpt_node).
    reflexivity.
  - destruct (set_hard_drive_node_accepts sample_drive
                (mkHardDriveNode (-1) 0 0 sample_signature None 2 2))
      as [_ Hhd].
    destruct (Hhd eq_refl) as (_ & Hover & _). apply Hover. simpl. lia.
  - destruct (set_hard_drive_node_accepts sample_drive
                (mkHardDriveNode 1 0 0 sample_signature None 256 2))
      as [_ Hhd].
    destruct (Hhd eq_refl) as (_ & _ & Hval). apply Hval; simpl; lia.
Defined.

(** X11.  [set_hard_drive_node] does not look at the length of the
    signature: the payload it writes has 22 bytes plus the signature.
    With a signature shorter than 16 bytes, [get_hard_drive_node] then
    returns the absent value; with one of at least 16 bytes it returns a
    value with the three integers that were set and with the first 16
    bytes of the signature. *)
Theorem set_hard_drive_node_signature (p : DevicePath)
  (node : HardDriveNode) :
  is_hard_drive p = true ->
  ints_fit node ->
  exists p',
    set_hard_drive_node p node = Ok (p', true)
    /\ length (data p') = 22 + length (partition_signature node)
    /\ (length (partition_signature node) < 16 ->
        get_hard_drive_node p' = Ok None)
    /\ (16 <= length (partition_signature node) ->
        exists node',
          get_hard_drive_node p' = Ok (Some node')
          /\ partition_number node' = partition_number node
          /\ partition_start_lba node' = partition_start_lba node
          /\ partition_size_lba node' = partition_size_lba node
          /\ partition_signature node'
             = firstn 16 (partition_signature node)).
Proof.
  intros Hhd Hfit.
  rewrite (set_hard_drive_node_payload p node Hhd Hfit).
  destruct Hfit as (Hn & Hs & Hz & _ & _).
  eexists. split; [reflexivity|].
  set (tail := partition_signature node
               ++ [byte_of_Z (partition_format node);
                   byte_of_Z (signature_type node)]).
  set (d := little_endian 4 (partition_number node) ++ _).
  assert (Hd : length d = 22 + length (partition_signature node)).
  { subst d tail. rewrite !length_app, !length_little_endian.
    cbn [length]. lia. }
  unfold with_data. cbn [data]. split; [exact Hd|]. split.
  - intros Hshort. unfold get_hard_drive_node.
    change (is_hard_drive (mkDevicePath (path_type p) (subtype p) d))
      with (is_hard_drive p).
    rewrite Hhd. cbn [negb data].
    destruct (Nat.ltb_spec (length d) 38); [reflexivity | lia].
  - intros Hlong.
    assert (Hr : readable_hard_drive
                   (mkDevicePath (path_type p) (subtype p) d) = true).
    { unfold readable_hard_drive.
      change (is_hard_drive (mkDevicePath (path_type p) (subtype p) d))
        with (is_hard_drive p).
      rewrite Hhd. cbn [andb data]. apply Nat.leb_le. lia. }
    destruct (get_hard_drive_node_readable _ Hr)
      as (b36 & b37 & _ & _ & Hget).
    cbn [data] in Hget. eexists. split; [exact Hget|].
    cbn [partition_number partition_start_lba partition_size_lba
         partition_signature].
    assert (E1 : slice d 0 4 = little_endian 4 (partition_number node))
      by reflexivity.
    assert (E2 : slice d 4 12 = little_endian 8 (partition_start_lba node))
      by reflexivity.
    assert (E3 : slice d 12 20 = little_endian 8 (partition_size_lba node))
      by reflexivity.
    assert (E4 : slice d 20 36 = firstn 16 tail) by reflexivity.
    rewrite E1, E2, E3, E4.
    rewrite (int_from_bytes_little_endian 4) by (simpl; lia).
    rewrite !(int_from_bytes_little_endian 8) by (simpl; lia).
    repeat split. subst tail.
    rewrite firstn_app.
    replace (16 - length (partition_signature node)) with 0 by lia.
    cbn [firstn]. apply app_nil_r.
Qed.

Lemma set_hard_drive_node_signature_witness :
  exists p',
    set_hard_drive_node sample_drive
      (mkHardDriveNode 1 2 3 [Byte.x01; Byte.x02] None 2 2)
    = Ok (p', true)
    /\ length (data p') = 24
    /\ get_hard_drive_node p' = Ok None.
Proof.
  destruct (set_hard_drive_node_signature sample_drive
              (mkHardDriveNode 1 2 3 [Byte.x01; Byte.x02] None 2 2))
    as (p' & Hset & Hlen & Hshort & _).
  - reflexivity.
  - unfold ints_fit; simpl; lia.
  - exists p'. split; [exact Hset|]. split; [exact Hlen|].
    apply Hshort. simpl; lia.
Defined.

(** ** The hard-drive methods of DevicePathList *)

Lemma first_match {A : Type} (f : A -> bool) (l : list A) :
  existsb f l = true ->
  exists pre x post,
    l = pre ++ x :: post /\ existsb f pre = false /\ f x = true.
Proof.
  induction l as [|y l IH]; intros Hex; [discriminate|].
  cbn [existsb] in Hex. destruct (f y) eqn:Hy.
  - exists [], y, l. repeat split. exact Hy.
  - cbn [orb] in Hex. destruct (IH Hex) as (pre & x & post & -> & Hpre & Hx).
    exists (y :: pre), x, post. repeat split; [|exact Hx].
    cbn [existsb]. now rewrite Hy, Hpre.
Qed.

Lemma list_set_hard_drive_node_skip (pre : list DevicePath) :
  forall rest node,
    existsb is_hard_drive pre = false ->
    list_set_hard_drive_node (pre ++ rest) node
    = ('(rest', r) <- list_set_hard_drive_node rest node ;;
       Ok (pre ++ rest', r)).
Proof.
  induction pre as [|q pre IH]; intros rest node Hpre.
  - cbn [app]. destruct (list_set_hard_drive_node rest node) as [[? ?]|];
      reflexivity.
  - cbn [existsb] in Hpre. apply orb_false_elim in Hpre.
    destruct Hpre as [Hq Hpre].
    cbn [app list_set_hard_drive_node]. rewrite Hq, (IH _ _ Hpre).
    destruct (list_set_hard_drive_node rest node) as [[? ?]|]; reflexivity.
Qed.

(** X12.  [DevicePathList.set_hard_drive_node] rewrites the first
    (Media, HardDrive) node of the list and nothing else: without such a
    node it returns False and the list is as before; with one, the nodes
    before and after it are kept and the result, or the exception, is that
    of [DevicePath.set_hard_drive_node] on that node. *)
Theorem list_set_hard_drive_node_first (paths : list DevicePath)
  (node : HardDriveNode) :
  (existsb is_hard_drive paths = false ->
   list_set_hard_drive_node paths node = Ok (paths, false))
  /\ (existsb is_hard_drive paths = true ->
      exists pre p post,
        paths = pre ++ p :: post
        /\ existsb is_hard_drive pre = false
        /\ is_hard_drive p = true
        /\ list_set_hard_drive_node paths node
           = ('(p', r) <- set_hard_drive_node p node ;;
              Ok (pre ++ p' :: post, r))).
Proof.
  split.
  - intros Hno.
    rewrite <- (app_nil_r paths) at 1.
    rewrite (list_set_hard_drive_node_skip paths [] node Hno).
    cbn [list_set_hard_drive_node bind]. now rewrite app_nil_r.
  - intros Hex.
    destruct (first_match is_hard_drive paths Hex)
      as (pre & p & post & -> & Hpre & Hp).
    exists pre, p, post. repeat split; try assumption.
    rewrite (list_set_hard_drive_node_skip pre _ node Hpre).
    cbn [list_set_hard_drive_node]. rewrite Hp.
    destruct (set_hard_drive_node p node) as [[? ?]|]; reflexivity.
Qed.

Lemma list_set_hard_drive_node_first_witness :
  list_set_hard_drive_node sample_paths sample_gpt_node
  = Ok (sample_paths, false).
Proof.
  apply (list_set_hard_drive_node_first sample_paths sample_gpt_node).
  reflexivity.
Defined.

Lemma get_hard_drive_node_unreadable (p : DevicePath) :
  readable_hard_drive p = false -> get_hard_drive_node p = Ok None.
Proof.
  unfold readable_hard_drive, get_hard_drive_node.
  destruct (is_hard_drive p); cbn [andb negb]; [|reflexivity].
  intros Hlen. apply Nat.leb_gt in Hlen.
  destruct (Nat.ltb_spec (length (data p)) 38); [reflexivity | lia].
Qed.

Lemma list_get_hard_drive_node_skip (pre : list DevicePath) :
  forall rest,
    existsb readable_hard_drive pre = false ->
    list_get_hard_drive_node (pre ++ rest) = list_get_hard_drive_node rest.
Proof.
  induction pre as [|q pre IH]; intros rest Hpre; [reflexivity|].
  cbn [existsb] in Hpre. apply orb_false_elim in Hpre.
  destruct Hpre as [Hq Hpre].
  cbn [app list_get_hard_drive_node].
  rewrite (get_hard_drive_node_unreadable q Hq). cbn [bind].
  now apply IH.
Qed.

(** X13.  [DevicePathList.get_hard_drive_node] never raises.  It returns
    the value read from the first (Media, HardDrive) node whose payload has
    at least 38 bytes, passing over the nodes of other variants and over
    hard-drive nodes with a shorter payload; it returns the absent value
    exactly when the list has no such node. *)
Theorem list_get_hard_drive_node_first (paths : list DevicePath) :
  (existsb readable_hard_drive paths = false ->
   list_get_hard_drive_node paths = Ok None)
  /\ (existsb readable_hard_drive paths = true ->
      exists pre p post node,
        paths = pre ++ p :: post
        /\ existsb readable_hard_drive pre = false
        /\ readable_hard_drive p = true
        /\ get_hard_drive_node p = Ok (Some node)
        /\ list_get_hard_drive_node paths = Ok (Some node)).
Proof.
  split.
  - intros Hno. rewrite <- (app_nil_r paths).
    now rewrite (list_get_hard_drive_node_skip paths [] Hno).
  - intros Hex.
    destruct (first_match readable_hard_drive paths Hex)
      as (pre & p & post & -> & Hpre & Hp).
    destruct (get_hard_drive_node_readable p Hp) as (b36 & b37 & _ & _ & Hn).
    exists pre, p, post. eexists. repeat split; try eassumption.
    rewrite (list_get_hard_drive_node_skip pre _ Hpre).
    cbn [list_get_hard_drive_node]. now rewrite Hn.
Qed.

Lemma list_get_hard_drive_node_first_witness :
  list_get_hard_drive_node (sample_drive :: sample_paths) = Ok None.
Proof.
  apply (list_get_hard_drive_node_first (sample_drive :: sample_paths)).
  reflexivity.
Defined.

Lemma derived_guid_layout (node : HardDriveNode) :
  length (partition_signature node) = 16 ->
  (guid <- (if is_gpt node
            then g <- UUID_bytes_le_str (partition_signature node) ;;
                 Ok (Some g)
            else Ok None) ;;
   Ok (Some (with_partition_guid node guid)))
  = Ok (Some (with_partition_guid node
                (derived_guid (partition_signature node)
                   (partition_format node) (signature_type node)))).
Proof.
  intros Hsig. unfold derived_guid, is_gpt.
  destruct ((partition_format node =? 2)%Z && (signature_type node =? 2)%Z);
    [|reflexivity].
  destruct (UUID_bytes_le_str_ok _ Hsig) as (g & Hg). now rewrite Hg.
Qed.

(** X14.  Through the methods of [DevicePathList]: for a list with a
    (Media, HardDrive) node and a value whose signature has 16 bytes and
    whose integers fit, [set_hard_drive_node] succeeds, keeps the number of
    nodes, and [get_hard_drive_node] then returns the value set with its
    guid computed afresh, also when the first hard-drive node had a
    payload too short to be read before. *)
Theorem list_hard_drive_node_round_trip (paths : list DevicePath)
  (node : HardDriveNode) :
  existsb is_hard_drive paths = true ->
  fits_layout node ->
  exists paths',
    list_set_hard_drive_node paths node = Ok (paths', true)
    /\ length paths' = length paths
    /\ list_get_hard_drive_node paths'
       = Ok (Some (with_partition_guid node
                     (derived_guid (partition_signature node)
                        (partition_format node) (signature_type node)))).
Proof.
  intros Hex Hfit.
  destruct (first_match is_hard_drive paths Hex)
    as (pre & p & post & -> & Hpre & Hp).
  rewrite (list_set_hard_drive_node_skip pre _ node Hpre).
  cbn [list_set_hard_drive_node]. rewrite Hp.
  rewrite (set_hard_drive_node_ok p node Hp Hfit). cbn [bind].
  eexists. split; [reflexivity|]. split.
  - rewrite !length_app. reflexivity.
  - assert (Hpre' : existsb readable_hard_drive pre = false).
    { clear - Hpre. induction pre as [|q pre IH]; [reflexivity|].
      cbn [existsb] in *. apply orb_false_elim in Hpre.
      destruct Hpre as [Hq Hpre]. unfold readable_hard_drive at 1.
      rewrite Hq. cbn [andb orb]. now apply IH. }
    rewrite (list_get_hard_drive_node_skip pre _ Hpre').
    cbn [list_get_hard_drive_node].
    match goal with
    | |- context [get_hard_drive_node ?q] =>
        rewrite (get_hard_drive_node_layout q node Hp Hfit eq_refl)
    end.
    destruct Hfit as (_ & _ & _ & Hsig & _).
    rewrite (derived_guid_layout node Hsig). reflexivity.
Qed.

Lemma list_hard_drive_node_round_trip_witness :
  exists paths',
    list_set_hard_drive_node (sample_paths ++ [sample_drive]) sample_gpt_node
    = Ok (paths', true)
    /\ length paths' = 3
    /\ list_get_hard_drive_node paths'
       = Ok (Some (with_partition_guid sample_gpt_node
                     (Some (str_of_string
                              "03020100-0504-0706-0809-0a0b0c0d0e0f")))).
Proof.
  apply (list_hard_drive_node_round_trip (sample_paths ++ [sample_drive])
           sample_gpt_node).
  - reflexivity.
  - unfold fits_layout; simpl; lia.
Defined.

(** ** The file-path methods of DevicePathList *)

Lemma list_get_file_path_skip (pre : list DevicePath) :
  forall rest,
    existsb is_file_path pre = false ->
    list_get_file_path (pre ++ rest) = list_get_file_path rest.
Proof.
  induction pre as [|q pre IH]; intros rest Hpre; [reflexivity|].
  cbn [existsb] in Hpre. apply orb_false_elim in Hpre.
  destruct Hpre as [Hq Hpre].
  cbn [app list_get_file_path].
  rewrite (get_file_path_other q Hq). cbn [bind]. now apply IH.
Qed.

Lemma list_set_file_path_skip (pre : list DevicePath) :
  forall rest s,
    existsb is_file_path pre = false ->
    list_set_file_path (pre ++ rest) s
    = ('(rest', r) <- list_set_file_path rest s ;; Ok (pre ++ rest', r)).
Proof.
  induction pre as [|q pre IH]; intros rest s Hpre.
  - cbn [app]. destruct (list_set_file_path rest s) as [[? ?]|];
      reflexivity.
  - cbn [existsb] in Hpre. apply orb_false_elim in Hpre.
    destruct Hpre as [Hq Hpre].
    cbn [app list_set_file_path]. rewrite Hq, (IH _ _ Hpre).
    destruct (list_set_file_path rest s) as [[? ?]|]; reflexivity.
Qed.

(** X15.  On a list with no (Media, FilePath) node,
    [DevicePathList.get_file_path] returns the absent value,
    [DevicePathList.set_file_path] returns False and keeps the list, no
    node being added, and [repr] of the list is "<Custom Location>"; none
    of the three raises. *)
Theorem list_file_path_absent (paths : list DevicePath) (s : str) :
  existsb is_file_path paths = false ->
  list_get_file_path paths = Ok None
  /\ list_set_file_path paths s = Ok (paths, false)
  /\ DevicePathList_repr paths = Ok (str_of_string "<Custom Location>").
Proof.
  intros Hno.
  assert (Hget : list_get_file_path paths = Ok None).
  { rewrite <- (app_nil_r paths).
    now rewrite (list_get_file_path_skip paths [] Hno). }
  split; [exact Hget|]. split.
  - rewrite <- (app_nil_r paths) at 1.
    rewrite (list_set_file_path_skip paths [] s Hno).
    cbn [list_set_file_path bind]. now rewrite app_nil_r.
  - unfold DevicePathList_repr. now rewrite Hget.
Qed.

Lemma list_file_path_absent_witness :
  list_get_file_path [sample_drive] = Ok None
  /\ list_set_file_path [sample_drive] sample_file_path
     = Ok ([sample_drive], false)
  /\ DevicePathList_repr [sample_drive]
     = Ok (str_of_string "<Custom Location>").
Proof.
  apply (list_file_path_absent [sample_drive] sample_file_path).
  reflexivity.
Defined.

(** X16.  The two file-path methods of [DevicePathList] address the same
    node, the first (Media, FilePath) node of the list:
    [get_file_path] gives what [DevicePath.get_file_path] gives on that
    node, and [set_file_path] gives what [DevicePath.set_file_path] gives
    on it, the nodes before and after being kept. *)
Theorem list_file_path_first (paths : list DevicePath) (s : str) :
  existsb is_file_path paths = true ->
  exists pre p post,
    paths = pre ++ p :: post
    /\ existsb is_file_path pre = false
    /\ is_file_path p = true
    /\ list_get_file_path paths = get_file_path p
    /\ list_set_file_path paths s
       = ('(p', r) <- set_file_path p s ;; Ok (pre ++ p' :: post, r)).
Proof.
  intros Hex.
  destruct (first_match is_file_path paths Hex)
    as (pre & p & post & -> & Hpre & Hp).
  exists pre, p, post. repeat split; try assumption.
  - rewrite (list_get_file_path_skip pre _ Hpre).
    cbn [list_get_file_path]. unfold get_file_path. rewrite Hp.
    cbn [negb]. destruct (utf16_string_from_bytes (data p)); reflexivity.
  - rewrite (list_set_file_path_skip pre _ s Hpre).
    cbn [list_set_file_path]. rewrite Hp.
    destruct (set_file_path p s) as [[? ?]|]; reflexivity.
Qed.

Lemma list_file_path_first_witness :
  exists pre p post,
    sample_paths = pre ++ p :: post
    /\ existsb is_file_path pre = false
    /\ is_file_path p = true
    /\ list_get_file_path sample_paths = get_file_path p
    /\ list_set_file_path sample_paths sample_file_path
       = ('(p', r) <- set_file_path p sample_file_path ;;
          Ok (pre ++ p' :: post, r)).
Proof.
  apply (list_file_path_first sample_paths sample_file_path). reflexivity.
Defined.

(* ================================================================== *)
(** * Further properties of boot.py *)

(** ** Signed 16-bit ids *)

Lemma unpack_h_two (b0 b1 : byte) :
  exists v, unpack_h [b0; b1] = Ok v /\ is_i16 v /\ pack_h v = Ok [b0; b1].
Proof.
  pose proof (byte_to_Z_range b0) as H0.
  pose proof (byte_to_Z_range b1) as H1.
  cbn [unpack_h]. eexists. split; [reflexivity|].
  set (u := (byte_to_Z b0 + 256 * byte_to_Z b1)%Z).
  assert (Hv : is_i16 (if (u <? 32768)%Z then u else (u - 65536)%Z)).
  { unfold is_i16. subst u. destruct (Z.ltb_spec
      (byte_to_Z b0 + 256 * byte_to_Z b1) 32768); lia. }
  split; [exact Hv|]. rewrite (pack_h_ok _ Hv). unfold i16_le.
  replace ((if (u <? 32768)%Z then u else (u - 65536)%Z) mod 256)%Z
    with (byte_to_Z b0)
    by (subst u; destruct (Z.ltb_spec
          (byte_to_Z b0 + 256 * byte_to_Z b1) 32768); lia).
  replace (((if (u <? 32768)%Z then u else (u - 65536)%Z) / 256) mod 256)%Z
    with (byte_to_Z b1)
    by (subst u; destruct (Z.ltb_spec
          (byte_to_Z b0 + 256 * byte_to_Z b1) 32768); lia).
  now rewrite !byte_of_to_Z.
Qed.

Lemma unpack_h_ok_inv (raw : bytes) (v : Z) :
  unpack_h raw = Ok v -> exists b0 b1, raw = [b0; b1].
Proof.
  destruct raw as [|b0 [|b1 [|b2 raw]]]; try discriminate.
  intros _. now exists b0, b1.
Qed.

Lemma pack_h_raise (v : Z) : ~ is_i16 v -> pack_h v = Raise struct_error.
Proof.
  unfold is_i16, pack_h. intros Hv.
  destruct (Z.leb_spec (-32768) v); [|reflexivity].
  destruct (Z.leb_spec v 32767); [lia | reflexivity].
Qed.

Lemma is_i16_dec (v : Z) : is_i16 v \/ ~ is_i16 v.
Proof. unfold is_i16. lia. Qed.

Lemma join_pack_h_raise (entry_ids : list Z) :
  ~ Forall is_i16 entry_ids -> join_pack_h entry_ids = Raise struct_error.
Proof.
  induction entry_ids as [|v ids IH]; intros Hno.
  - exfalso. apply Hno. constructor.
  - cbn [join_pack_h]. destruct (is_i16_dec v) as [Hv|Hv].
    + rewrite (pack_h_ok v Hv). cbn [bind]. rewrite IH; [reflexivity|].
      intros Hall. apply Hno. now constructor.
    + now rewrite (pack_h_raise v Hv).
Qed.

(** ** BootNext *)

(** X17.  An id that [get_boot_next] returns is a signed 16-bit value read
    from a BootNext of exactly two bytes, and [set_boot_next] with that id
    writes these same two bytes to BootNext. *)
Theorem set_get_boot_next {St : Type} `{Firmware St} (st : St)
  (entry_id : Z) :
  get_boot_next st = Ok (Some entry_id) ->
  is_i16 entry_id
  /\ exists raw attributes,
       get_variable BootNext st = Ok (raw, attributes)
       /\ length raw = 2
       /\ set_boot_next entry_id st = set_variable BootNext raw st.
Proof.
  unfold get_boot_next, set_boot_next.
  destruct (verify_uefi_firmware st) as [[]|e]; cbn [bind]; [|discriminate].
  destruct (get_variable BootNext st) as [[raw attributes]|e]; cbn [bind];
    [|discriminate].
  destruct (unpack_h raw) as [v|e] eqn:Hu; [|discriminate].
  intros Hv. inversion Hv; subst v.
  destruct (unpack_h_ok_inv raw entry_id Hu) as (b0 & b1 & ->).
  destruct (unpack_h_two b0 b1) as (v & Hu' & Hi & Hp).
  rewrite Hu in Hu'. inversion Hu'; subst v.
  split; [exact Hi|]. exists [b0; b1], attributes.
  split; [reflexivity|]. split; [reflexivity|].
  now rewrite Hp.
Qed.

Lemma set_get_boot_next_witness :
  is_i16 3
  /\ exists raw attributes,
       get_variable BootNext nvram_next_3 = Ok (raw, attributes)
       /\ length raw = 2
       /\ set_boot_next 3 nvram_next_3
          = set_variable BootNext raw nvram_next_3.
Proof.
  apply (set_get_boot_next nvram_next_3 3). reflexivity.
Defined.

(** X18.  For every signed 16-bit id, on a platform that passes the
    firmware check, [set_boot_next] writes to BootNext the two
    little-endian bytes of the id, and [get_boot_next] on a store whose
    BootNext holds these bytes returns the id. *)
Theorem boot_next_round_trip {St : Type} `{Firmware St} (entry_id : Z)
  (st : St) :
  is_i16 entry_id ->
  verify_uefi_firmware st = Ok tt ->
  set_boot_next entry_id st = set_variable BootNext (i16_le entry_id) st
  /\ (forall st' attributes,
        verify_uefi_firmware st' = Ok tt ->
        get_variable BootNext st' = Ok (i16_le entry_id, attributes) ->
        get_boot_next st' = Ok (Some entry_id)).
Proof.
  intros Hid Hv. split.
  - unfold set_boot_next. rewrite Hv. cbn [bind].
    now rewrite (pack_h_ok entry_id Hid).
  - intros st' attributes Hv' Hget. unfold get_boot_next.
    rewrite Hv'. cbn [bind]. rewrite Hget. cbn [bind].
    now rewrite (unpack_h_i16_le entry_id Hid).
Qed.

Lemma boot_next_round_trip_witness :
  exists st',
    set_boot_next (-2) nvram_empty = Ok st'
    /\ get_boot_next st' = Ok (Some (-2)%Z).
Proof.
  assert (Hid : is_i16 (-2)) by (unfold is_i16; lia).
  destruct (boot_next_round_trip (-2) nvram_empty Hid)
    as (Hset & Hget); [reflexivity|].
  eexists. split.
  - rewrite Hset. reflexivity.
  - apply (Hget _ 7%Z); reflexivity.
Defined.

(** ** Ids that do not fit, and platforms that are not UEFI *)

(** X19.  On a platform that passes the firmware check, [set_boot_next]
    with an id that is not a signed 16-bit value, and [set_boot_order]
    with a list holding such an id, raise [struct.error]: the packing
    fails before the store is written. *)
Theorem set_boot_ids_out_of_range {St : Type} `{Firmware St} (st : St) :
  verify_uefi_firmware st = Ok tt ->
  (forall entry_id,
     ~ is_i16 entry_id -> set_boot_next entry_id st = Raise struct_error)
  /\ (forall entry_ids,
        ~ Forall is_i16 entry_ids ->
        set_boot_order entry_ids st = Raise struct_error).
Proof.
  intros Hv. split.
  - intros entry_id Hid. unfold set_boot_next. rewrite Hv. cbn [bind].
    now rewrite (pack_h_raise entry_id Hid).
  - intros entry_ids Hids. unfold set_boot_order. rewrite Hv. cbn [bind].
    now rewrite (join_pack_h_raise entry_ids Hids).
Qed.

Lemma set_boot_ids_out_of_range_witness :
  set_boot_next 32768 nvram_empty = Raise struct_error
  /\ set_boot_order [1; 65535; 2]%Z nvram_empty = Raise struct_error.
Proof.
  destruct (set_boot_ids_out_of_range nvram_empty) as [Hnext Horder];
    [reflexivity|].
  split.
  - apply Hnext. unfold is_i16. lia.
  - apply Horder. intros Hall.
    inversion Hall as [|? ? _ Hrest]; subst.
    inversion Hrest as [|? ? Hbad _]; subst.
    unfold is_i16 in Hbad. lia.
Defined.

(** X20.  Each of the six operations of boot.py on variables checks the
    platform first: when [verify_uefi_firmware] raises, the operation
    raises the same exception, before any id is packed and whatever the
    store would have answered; [get_boot_next] does not turn this
    exception into the absent value. *)
Theorem unsupported_firmware_aborts {St : Type} `{Firmware St} (st : St)
  (e : exn) :
  verify_uefi_firmware st = Raise e ->
  get_boot_order st = Raise e
  /\ (forall entry_ids, set_boot_order entry_ids st = Raise e)
  /\ (forall entry_id, get_boot_entry entry_id st = Raise e)
  /\ (forall entry_id raw, set_boot_entry entry_id raw st = Raise e)
  /\ get_boot_next st = Raise e
  /\ (forall entry_id, set_boot_next entry_id st = Raise e).
Proof.
  intros Hv.
  unfold get_boot_order, set_boot_order, get_boot_entry, set_boot_entry,
    get_boot_next, set_boot_next.
  rewrite Hv. repeat split.
Qed.

Lemma unsupported_firmware_aborts_witness :
  set_boot_order [70000]%Z nvram_legacy
  = Raise (StoreError UnsupportedFirmware)
  /\ get_boot_next nvram_legacy = Raise (StoreError UnsupportedFirmware).
Proof.
  destruct (unsupported_firmware_aborts nvram_legacy
              (StoreError UnsupportedFirmware))
    as (_ & Horder & _ & _ & Hnext & _); [reflexivity|].
  split; [apply Horder | exact Hnext].
Defined.

(** ** The names of boot entries *)

Lemma hex_digit_value_upper (d : N) :
  (d < 16)%N -> hex_digit_value (hex_digit true d) = d.
Proof.
  intros Hd. unfold hex_digit, hex_digit_value.
  destruct (N.ltb_spec d 10).
  - destruct (N.ltb_spec (48 + d) 58); lia.
  - destruct (N.ltb_spec (65 + (d - 10)) 58); lia.
Qed.

Lemma hex_value_loop (fuel : nat) : forall n acc,
  (n < 2 ^ N.of_nat fuel)%N ->
  fold_left (fun a c => (16 * a + hex_digit_value c)%N)
    (hex_upper_loop fuel n acc) 0%N
  = fold_left (fun a c => (16 * a + hex_digit_value c)%N) acc n.
Proof.
  induction fuel as [|fuel IH]; intros n acc Hn.
  - cbn [hex_upper_loop]. simpl in Hn. f_equal. lia.
  - rewrite Nat2N.inj_succ, N.pow_succ_r' in Hn.
    rewrite hex_upper_loop_unroll.
    destruct (N.eqb_spec (n / 16) 0) as [Hz|Hz].
    + cbn [fold_left]. rewrite hex_digit_value_upper by lia.
      f_equal. lia.
    + rewrite IH by lia. cbn [fold_left].
      rewrite hex_digit_value_upper by lia. f_equal. lia.
Qed.

Lemma hex_value_hex_upper (n : N) : hex_value (hex_upper n) = n.
Proof.
  unfold hex_value, hex_upper. rewrite hex_value_loop; [reflexivity|].
  rewrite Nat2N.inj_succ, N2Nat.id.
  destruct (N.eq_dec n 0) as [->|Hn]; [reflexivity|].
  apply N.log2_spec. lia.
Qed.

Lemma hex_value_zeros (k : nat) (s : str) :
  hex_value (repeat 48%N k ++ s) = hex_value s.
Proof.
  unfold hex_value. rewrite fold_left_app. f_equal.
  induction k as [|k IH]; [reflexivity|]. cbn [repeat fold_left].
  exact IH.
Qed.

Lemma hex_upper_loop_chars (P : N -> Prop) (fuel : nat) : forall n acc,
  (forall d, (d < 16)%N -> P (hex_digit true d)) ->
  Forall P acc ->
  Forall P (hex_upper_loop fuel n acc).
Proof.
  induction fuel as [|fuel IH]; intros n acc Hd Hacc; [exact Hacc|].
  rewrite hex_upper_loop_unroll.
  assert (Hacc' : Forall P (hex_digit true (n mod 16) :: acc))
    by (constructor; [apply Hd; lia | exact Hacc]).
  destruct (n / 16 =? 0)%N; [exact Hacc' | now apply IH].
Qed.

Lemma format_04X_nonneg (v : Z) :
  (0 <= v)%Z ->
  Forall (fun c => In c upper_hex_digits) (format_04X v)
  /\ hex_value (format_04X v) = Z.to_N v.
Proof.
  intros Hv. unfold format_04X.
  destruct (Z.ltb_spec v 0); [lia|]. cbn [app].
  replace (Z.abs_N v) with (Z.to_N v) by lia. split.
  - apply Forall_app. split.
    + apply Forall_forall. intros c Hc. apply repeat_spec in Hc. subst c.
      vm_compute. tauto.
    + apply hex_upper_loop_chars; [apply hex_digit_upper | constructor].
  - now rewrite hex_value_zeros, hex_value_hex_upper.
Qed.

Lemma format_04X_neg (v : Z) :
  (v < 0)%Z ->
  exists rest,
    format_04X v = 45%N :: rest /\ hex_value rest = Z.abs_N v.
Proof.
  intros Hv. unfold format_04X.
  destruct (Z.ltb_spec v 0); [|lia].
  eexists. split; [reflexivity|].
  now rewrite hex_value_zeros, hex_value_hex_upper.
Qed.

Lemma minus_not_hex : ~ In 45%N upper_hex_digits.
Proof.
  vm_compute. intros Hin.
  repeat (destruct Hin as [Hin|Hin]; [discriminate Hin|]). exact Hin.
Qed.

Lemma hex_digit_value_lt (c : N) :
  In c upper_hex_digits -> (hex_digit_value c < 16)%N.
Proof.
  intros Hin. vm_compute in Hin.
  repeat (destruct Hin as [<-|Hin]; [vm_compute; reflexivity|]).
  destruct Hin.
Qed.

(** X21.  ["{:04X}".format(entry_id)] is made of exactly four upper-case
    hexadecimal digits if and only if the id is between 0 and 0xFFFF, and
    these digits then denote the id: for every other id the name of the
    variable that [get_boot_entry] and [set_boot_entry] address is not
    "Boot" followed by four hexadecimal digits. *)
Theorem format_04X_four_digits (entry_id : Z) :
  (length (format_04X entry_id) = 4
   /\ Forall (fun c => In c upper_hex_digits) (format_04X entry_id))
  <-> (0 <= entry_id < 65536)%Z.
Proof.
  split.
  - intros [Hlen Hall].
    destruct (Z.ltb_spec entry_id 0) as [Hneg|Hpos].
    + destruct (format_04X_neg entry_id Hneg) as (rest & Hf & _).
      rewrite Hf in Hall. inversion Hall as [|? ? Hminus _]; subst.
      now apply minus_not_hex in Hminus.
    + destruct (format_04X_nonneg entry_id Hpos) as [_ Hval].
      destruct (format_04X entry_id) as [|a [|b [|c [|d [|? ?]]]]];
        try discriminate Hlen.
      inversion Hall as [|? ? Ha Hall1]; subst.
      inversion Hall1 as [|? ? Hb Hall2]; subst.
      inversion Hall2 as [|? ? Hc Hall3]; subst.
      inversion Hall3 as [|? ? Hd _]; subst.
      apply hex_digit_value_lt in Ha, Hb, Hc, Hd.
      unfold hex_value in Hval. cbn [fold_left] in Hval. lia.
  - intros Hid. rewrite (format_04X_u16 entry_id Hid).
    apply hex4_upper.
Qed.

(** X22.  Two different entry ids are never given the same variable name:
    the names that [get_boot_entry] and [set_boot_entry] make for them
    differ, for all integers. *)
Theorem boot_entry_name_injective (a b : Z) :
  a <> b -> boot_entry_name a <> boot_entry_name b.
Proof.
  unfold boot_entry_name. intros Hne Hab. apply Hne. clear Hne.
  apply app_inv_head in Hab.
  destruct (Z.ltb_spec a 0) as [Ha|Ha], (Z.ltb_spec b 0) as [Hb|Hb].
  - destruct (format_04X_neg a Ha) as (ra & Hfa & Hva).
    destruct (format_04X_neg b Hb) as (rb & Hfb & Hvb).
    rewrite Hfa, Hfb in Hab. inversion Hab; subst rb.
    rewrite Hva in Hvb. lia.
  - destruct (format_04X_neg a Ha) as (ra & Hfa & _).
    destruct (format_04X_nonneg b Hb) as [Hall _].
    rewrite <- Hab, Hfa in Hall. inversion Hall as [|? ? Hminus _]; subst.
    now apply minus_not_hex in Hminus.
  - destruct (format_04X_neg b Hb) as (rb & Hfb & _).
    destruct (format_04X_nonneg a Ha) as [Hall _].
    rewrite Hab, Hfb in Hall. inversion Hall as [|? ? Hminus _]; subst.
    now apply minus_not_hex in Hminus.
  - destruct (format_04X_nonneg a Ha) as [_ Hva].
    destruct (format_04X_nonneg b Hb) as [_ Hvb].
    rewrite Hab, Hvb in Hva. lia.
Qed.

Lemma boot_entry_name_injective_witness :
  boot_entry_name 1 <> boot_entry_name (-1).
Proof.
  apply (boot_entry_name_injective 1 (-1)). discriminate.
Defined.

(** ** Where the nodes of from_bytes come from *)

(** X23.  Every node of a list that [from_bytes] returns was read from a
    header of the buffer: at some offset the four header bytes hold the
    value of its type, the value of its subtype and a length, and its
    payload is the slice [raw[offset+4 : offset+length]]. *)
Theorem from_bytes_reads_headers (fuel : nat) (raw : bytes)
  (paths : list DevicePath) :
  from_bytes fuel raw = Some (Ok paths) ->
  Forall (fun p =>
            exists offset len,
              offset + 4 <= length raw
              /\ EFI_DEVICE_PATH_unpack_from raw offset
                 = Ok (value (path_type p), Subtype_value (subtype p), len)
              /\ data p = slice raw (offset + 4) (offset + len)) paths.
Proof.
  intros Hrun.
  apply (from_bytes_loop_nodes _ fuel raw 0 [] paths);
    [|constructor | exact Hrun].
  intros o p len Hb.
  destruct (from_bytes_body_ok _ _ _ _ Hb) as (pt & st & Hu & Hi).
  apply DevicePath_init_ok in Hi. destruct Hi as (Ht & Hs & _ & Hd).
  exists o, len. rewrite Ht, Hs. split; [|split; assumption].
  now apply (unpack_from_room raw o pt st len).
Qed.

Lemma from_bytes_reads_headers_witness :
  Forall (fun p =>
            exists offset len,
              offset + 4 <= length sample_path
              /\ EFI_DEVICE_PATH_unpack_from sample_path offset
                 = Ok (value (path_type p), Subtype_value (subtype p), len)
              /\ data p = slice sample_path (offset + 4) (offset + len))
    sample_paths.
Proof.
  apply (from_bytes_reads_headers 3 sample_path). reflexivity.
Defined.

(** ** Changing the hard-drive node of a list, then encoding *)

(** X24.  A list that encodes still does after its hard-drive node was
    set: for a list of nodes with their subtype in the class of their type
    for which [to_bytes] returns, with a (Media, HardDrive) node, and for a
    value that fits the layout, [DevicePathList.set_hard_drive_node]
    succeeds, [to_bytes] of the list it leaves returns, and [from_bytes]
    of these bytes is that list. *)
Theorem set_hard_drive_node_then_encode (paths : list DevicePath)
  (node : HardDriveNode) (raw : bytes) :
  Forall in_class paths ->
  existsb is_hard_drive paths = true ->
  fits_layout node ->
  to_bytes paths = Ok raw ->
  exists paths' raw',
    list_set_hard_drive_node paths node = Ok (paths', true)
    /\ to_bytes paths' = Ok raw'
    /\ forall fuel, length paths' < fuel ->
                    from_bytes fuel raw' = Some (Ok paths').
Proof.
  intros Hc Hex Hfit Henc.
  destruct (forallb encodable paths) eqn:He;
    [|rewrite (to_bytes_too_long paths He) in Henc; discriminate].
  destruct (first_match is_hard_drive paths Hex)
    as (pre & p & post & -> & Hpre & Hp).
  rewrite (list_set_hard_drive_node_skip pre _ node Hpre).
  cbn [list_set_hard_drive_node]. rewrite Hp.
  rewrite (set_hard_drive_node_ok p node Hp Hfit). cbn [bind].
  set (p' := mkDevicePath (path_type p) (subtype p) _).
  assert (Hc' : Forall in_class (pre ++ p' :: post)).
  { apply Forall_app in Hc. destruct Hc as [Hcpre Hcrest].
    inversion Hcrest as [|? ? Hcp Hcpost]; subst.
    apply Forall_app. split; [assumption|].
    constructor; [exact Hcp | assumption]. }
  assert (He' : forallb encodable (pre ++ p' :: post) = true).
  { rewrite forallb_app in He |- *. cbn [forallb] in He |- *.
    apply andb_prop in He. destruct He as [Hepre Herest].
    apply andb_prop in Herest. destruct Herest as [_ Hepost].
    rewrite Hepre, Hepost, andb_true_r. cbn [andb].
    destruct Hfit as (_ & _ & _ & Hsig & _).
    unfold encodable, EFI_DEVICE_PATH_size. apply Nat.ltb_lt.
    subst p'. cbn [data].
    rewrite !length_app, !length_little_endian, Hsig. cbn [length]. lia. }
  exists (pre ++ p' :: post), (flat_map node_encoding (pre ++ p' :: post)).
  split; [reflexivity|]. split; [now apply to_bytes_encodable|].
  intros fuel Hfuel. unfold from_bytes.
  apply (from_bytes_loop_encoding _ [] [] fuel Hc' He' Hfuel).
Qed.

Lemma set_hard_drive_node_then_encode_witness :
  exists paths' raw',
    list_set_hard_drive_node (sample_drive :: sample_paths) sample_gpt_node
    = Ok (paths', true)
    /\ to_bytes paths' = Ok raw'
    /\ forall fuel, length paths' < fuel ->
                    from_bytes fuel raw' = Some (Ok paths').
Proof.
  apply (set_hard_drive_node_then_encode (sample_drive :: sample_paths)
           sample_gpt_node
           ([Byte.x04; Byte.x01; Byte.x04; Byte.x00] ++ sample_path)).
  - repeat constructor.
  - reflexivity.
  - unfold fits_layout; simpl; lia.
  - reflexivity.
Defined.

(** ** The guid and the signature *)

Lemma hex_of_byte_inj (a b : byte) :
  hex_digit false (Byte.to_N a / 16) = hex_digit false (Byte.to_N b / 16) ->
  hex_digit false (Byte.to_N a mod 16)
  = hex_digit false (Byte.to_N b mod 16) ->
  a = b.
Proof.
  pose proof (Byte.to_N_bounded a) as Ha.
  pose proof (Byte.to_N_bounded b) as Hb.
  unfold hex_digit. intros Hhi Hlo.
  assert (Hq : (Byte.to_N a / 16 = Byte.to_N b / 16)%N).
  { destruct (N.ltb_spec (Byte.to_N a / 16) 10),
      (N.ltb_spec (Byte.to_N b / 16) 10); lia. }
  assert (Hr : (Byte.to_N a mod 16 = Byte.to_N b mod 16)%N).
  { destruct (N.ltb_spec (Byte.to_N a mod 16) 10),
      (N.ltb_spec (Byte.to_N b mod 16) 10); lia. }
  assert (Hn : Byte.to_N a = Byte.to_N b) by lia.
  pose proof (Byte.of_to_N a) as Ea. rewrite Hn, Byte.of_to_N in Ea.
  now inversion Ea.
Qed.

Lemma UUID_bytes_le_str_inj (s1 s2 : bytes) (g : str) :
  UUID_bytes_le_str s1 = Ok g -> UUID_bytes_le_str s2 = Ok g -> s1 = s2.
Proof.
  unfold UUID_bytes_le_str.
  destruct (Nat.eqb_spec (length s1) 16) as [H1|]; [|discriminate].
  destruct (Nat.eqb_spec (length s2) 16) as [H2|]; [|discriminate].
  do 16 (destruct s1 as [|? s1]; [discriminate H1|]).
  destruct s1; [|discriminate H1].
  do 16 (destruct s2 as [|? s2]; [discriminate H2|]).
  destruct s2; [|discriminate H2].
  clear H1 H2.
  cbn -[hex_digit Byte.to_N N.div N.modulo].
  intros E1 E2. rewrite <- E2 in E1. clear E2.
  injection E1 as. 
  repeat match goal with
         | Hhi : hex_digit false (Byte.to_N ?a / 16)
                 = hex_digit false (Byte.to_N ?b / 16),
           Hlo : hex_digit false (Byte.to_N ?a mod 16)
                 = hex_digit false (Byte.to_N ?b mod 16) |- _ =>
             pose proof (hex_of_byte_inj a b Hhi Hlo); clear Hhi Hlo; subst a
         end.
  reflexivity.
Qed.

(** X25.  The guid that [get_hard_drive_node] returns determines the
    signature: two values it returns with the same guid present have the
    same 16 signature bytes. *)
Theorem partition_guid_determines_signature (p1 p2 : DevicePath)
  (node1 node2 : HardDriveNode) (g : str) :
  get_hard_drive_node p1 = Ok (Some node1) ->
  get_hard_drive_node p2 = Ok (Some node2) ->
  partition_guid node1 = Some g ->
  partition_guid node2 = Some g ->
  partition_signature node1 = partition_signature node2.
Proof.
  intros Hget1 Hget2 Hg1 Hg2.
  apply (UUID_bytes_le_str_inj _ _ g).
  - now apply (get_hard_drive_node_guid p1).
  - now apply (get_hard_drive_node_guid p2).
Qed.

Lemma partition_guid_determines_signature_witness :
  exists node1 node2,
    get_hard_drive_node (with_data sample_drive (repeat Byte.x02 38))
    = Ok (Some node1)
    /\ get_hard_drive_node (with_data sample_drive (repeat Byte.x02 40))
       = Ok (Some node2)
    /\ partition_signature node1 = partition_signature node2.
Proof.
  destruct (get_hard_drive_node
              (with_data sample_drive (repeat Byte.x02 38)))
    as [[node1|]|e] eqn:Hget1; try (vm_compute in Hget1; discriminate).
  destruct (get_hard_drive_node
              (with_data sample_drive (repeat Byte.x02 40)))
    as [[node2|]|e] eqn:Hget2; try (vm_compute in Hget2; discriminate).
  exists node1, node2. split; [reflexivity|]. split; [reflexivity|].
  apply (partition_guid_determines_signature _ _ node1 node2
           (str_of_string "02020202-0202-0202-0202-020202020202")
           Hget1 Hget2).
  - vm_compute in Hget1. now inversion Hget1.
  - vm_compute in Hget2. now inversion Hget2.
Defined.
